(** * The Pokemon controller: request handlers over a record store

    A shallow embedding of the two revisions of [PokemonController]
    found in the repository (the paginated one, which has [list], and the
    one under [src/endpoints/pokemon]).  Handlers are programs that await
    repository calls and then send one response, or throw; query
    parameters go through JavaScript's [Number], which throws on some
    objects, and through [||], [Math.min] and [Math.max], all modelled
    on IEEE 754 binary64 values. *)

From Stdlib Require Import ZArith List String Ascii Bool Lia.
From Stdlib Require Import Floats.SpecFloat.
Import ListNotations.

Local Open Scope string_scope.
Local Open Scope Z_scope.

Set Warnings "-register-all".

(** ** JavaScript numbers *)

Module JS.

(** A JavaScript number is a binary64 value: 53 bits of precision,
    infinities at exponent 1024, one NaN. *)
Definition number : Type := spec_float.
Definition prec : Z := 53.
Definition emax : Z := 1024.

Definition NaN : number := S754_nan.
Definition of_Z (z : Z) : number := binary_normalize prec emax z 0 false.

Definition sub (x y : number) : number := SFsub prec emax x y.
Definition mul (x y : number) : number := SFmul prec emax x y.
Definition lt (x y : number) : bool := SFltb x y.
Definition le (x y : number) : bool := SFleb x y.
(** [x === y] on numbers: NaN equals nothing, the two zeros are equal. *)
Definition eq (x y : number) : bool := SFeqb x y.

(** ToBoolean on numbers: the zeros and NaN are falsy. *)
Definition ToBoolean (x : number) : bool :=
  match x with
  | S754_zero _ | S754_nan => false
  | S754_infinity _ | S754_finite _ _ _ => true
  end.

(** [x || y] *)
Definition or (x y : number) : number := if ToBoolean x then x else y.

(** [Math.min(x, y)]: NaN if either is NaN, and -0 is below +0. *)
Definition Math_min (x y : number) : number :=
  match x, y with
  | S754_nan, _ | _, S754_nan => S754_nan
  | S754_zero sx, S754_zero sy => S754_zero (sx || sy)
  | _, _ => if lt y x then y else x
  end.

(** [Math.max(x, y)] *)
Definition Math_max (x y : number) : number :=
  match x, y with
  | S754_nan, _ | _, S754_nan => S754_nan
  | S754_zero sx, S754_zero sy => S754_zero (sx && sy)
  | _, _ => if lt x y then y else x
  end.

(** *** StringToNumber

    Strings are byte strings holding UTF-8.  The literal is trimmed of
    white space and line terminators, then read as a non-decimal integer
    literal, a signed [Infinity], or a signed decimal literal with
    optional fraction and exponent; its exact value is rounded to the
    nearest binary64, ties to even. *)

Definition byte (n : nat) : string := String (ascii_of_nat n) EmptyString.
Definition bytes (l : list nat) : string :=
  fold_right (fun n s => String (ascii_of_nat n) s) EmptyString l.

(** TAB, LF, VT, FF, CR, SP, then U+00A0, U+1680, U+2000 to U+200A,
    U+2028, U+2029, U+202F, U+205F, U+3000 and U+FEFF. *)
Definition StrWhiteSpaceChar : list string :=
  (map byte [9; 10; 11; 12; 13; 32]%nat
   ++ map bytes
        ([ [194; 160]; [225; 154; 128] ]
         ++ map (fun b => [226; 128; b])
              [128; 129; 130; 131; 132; 133; 134; 135; 136; 137; 138;
               168; 169; 175]
         ++ [ [226; 129; 159]; [227; 128; 128]; [239; 187; 191] ])%nat)%list.

Fixpoint strip_prefix (p s : string) : option string :=
  match p, s with
  | EmptyString, _ => Some s
  | String a p', String b s' =>
      if Ascii.eqb a b then strip_prefix p' s' else None
  | String _ _, EmptyString => None
  end.

Fixpoint strip_any (ps : list string) (s : string) : option string :=
  match ps with
  | [] => None
  | p :: ps' =>
      match strip_prefix p s with
      | Some r => Some r
      | None => strip_any ps' s
      end
  end.

Fixpoint trim_start_fuel (ws : list string) (fuel : nat) (s : string)
  : string :=
  match fuel with
  | O => s
  | S fuel' =>
      match strip_any ws s with
      | Some r => trim_start_fuel ws fuel' r
      | None => s
      end
  end.

Fixpoint rev_string (s acc : string) : string :=
  match s with
  | EmptyString => acc
  | String c s' => rev_string s' (String c acc)
  end.

Definition trim (s : string) : string :=
  let ws := StrWhiteSpaceChar in
  let s1 := trim_start_fuel ws (String.length s) s in
  let rws := map (fun w => rev_string w EmptyString) ws in
  let r := rev_string s1 EmptyString in
  rev_string (trim_start_fuel rws (String.length r) r) EmptyString.

Definition digit_value (c : ascii) : option Z :=
  let n := Z.of_nat (nat_of_ascii c) in
  if (48 <=? n) && (n <=? 57) then Some (n - 48)
  else if (97 <=? n) && (n <=? 102) then Some (n - 87)
  else if (65 <=? n) && (n <=? 70) then Some (n - 55)
  else None.

(** Reads the longest run of digits of the base, continuing the
    accumulator; gives the value, the number of digits and the rest. *)
Fixpoint read_digits (base : Z) (s : string) (acc : Z) (n : Z)
  : Z * Z * string :=
  match s with
  | EmptyString => (acc, n, s)
  | String c s' =>
      match digit_value c with
      | Some d =>
          if d <? base then read_digits base s' (base * acc + d) (n + 1)
          else (acc, n, s)
      | None => (acc, n, s)
      end
  end.

(** The binary64 nearest to [m * 10^e], with the sign [neg]. *)
Definition round_decimal (neg : bool) (m e : Z) : number :=
  match m with
  | Zpos p =>
      if 0 <=? e then
        match Z.pos p * 10 ^ e with
        | Zpos v => binary_round prec emax neg v 0
        | _ => S754_zero neg
        end
      else
        let '(q, e', l) :=
          SFdiv_core_binary prec emax (Z.pos p) 0 (10 ^ (- e)) 0 in
        binary_round_aux prec emax neg q e' l
  | _ => S754_zero neg
  end.

Definition is_exponent_indicator (c : ascii) : bool :=
  Ascii.eqb c "e" || Ascii.eqb c "E".

(** SignedInteger: an optional sign and at least one decimal digit,
    up to the end of the literal. *)
Definition SignedInteger (s : string) : option Z :=
  let '(neg, r) :=
    match s with
    | String "+" r => (false, r)
    | String "-" r => (true, r)
    | _ => (false, s)
    end in
  let '(v, n, rest) := read_digits 10 r 0 0 in
  if (0 <? n) && String.eqb rest EmptyString
  then Some (if neg then - v else v)
  else None.

Definition StrUnsignedDecimalLiteral (neg : bool) (s : string) : number :=
  if String.eqb s "Infinity" then S754_infinity neg
  else
    let '(ip, ni, r1) := read_digits 10 s 0 0 in
    let '(m, nf, r2) :=
      match r1 with
      | String "." r => read_digits 10 r ip 0
      | _ => (ip, 0, r1)
      end in
    if ni + nf =? 0 then NaN
    else
      match r2 with
      | EmptyString => round_decimal neg m (- nf)
      | String c r3 =>
          if is_exponent_indicator c then
            match SignedInteger r3 with
            | Some ex => round_decimal neg m (ex - nf)
            | None => NaN
            end
          else NaN
      end.

Definition StrDecimalLiteral (s : string) : number :=
  match s with
  | String "+" r => StrUnsignedDecimalLiteral false r
  | String "-" r => StrUnsignedDecimalLiteral true r
  | _ => StrUnsignedDecimalLiteral false s
  end.

(** [0x], [0o] and [0b] literals: unsigned, digits to the end. *)
Definition NonDecimalIntegerLiteral (s : string) : option number :=
  match s with
  | String "0" (String c r) =>
      let base :=
        if Ascii.eqb c "x" || Ascii.eqb c "X" then Some 16
        else if Ascii.eqb c "o" || Ascii.eqb c "O" then Some 8
        else if Ascii.eqb c "b" || Ascii.eqb c "B" then Some 2
        else None in
      match base with
      | Some b =>
          let '(v, n, rest) := read_digits b r 0 0 in
          if (0 <? n) && String.eqb rest EmptyString then Some (of_Z v)
          else Some NaN
      | None => None
      end
  | _ => None
  end.

Definition StringToNumber (s : string) : number :=
  let t := trim s in
  if String.eqb t EmptyString then S754_zero false
  else
    match NonDecimalIntegerLiteral t with
    | Some x => x
    | None => StrDecimalLiteral t
    end.

End JS.

(** ** Requests and responses *)

(** Modelled from the spec: [Pokemon.entity] is not among the sources.
    The entity has the attributes "[name] (string)" and "[type]
    (string)", the two the handlers assign and read. *)
Record Pokemon : Type := { name : string; type : string }.

(** A value of [req.query]: absent, a string, or the arrays and plain
    objects the query-string parser builds from repeated and bracketed
    keys.  An object is given by its own keys, which may shadow those
    of [Object.prototype] ([?limit[toString]=x]); no value is
    callable. *)
Inductive QueryValue : Type :=
| QUndefined
| QString (s : string)
| QArray (l : list QueryValue)
| QObject (o : list (string * QueryValue)).

(** How a conversion completes: with a value, or by throwing a
    TypeError. *)
Inductive Completion (A : Type) : Type :=
| Normal (a : A)
| Throws.

Arguments Normal {A} a.
Arguments Throws {A}.

(** Whether the object has [key] among its own keys. *)
Definition own (key : string) (o : list (string * QueryValue)) : bool :=
  existsb (fun kv => String.eqb (fst kv) key) o.

(** The conversion of a value to a string, as [Number] applies it to a
    non-primitive and [join] to the elements of an array.  An array
    joins its elements with commas, absent ones as empty strings.  A
    plain object goes through [valueOf] and [toString]: the inherited
    [valueOf] gives back the object, an own one is not callable; the
    inherited [toString] prints a fixed tag, and an own [toString],
    not callable, leaves no method to call, which throws. *)
Fixpoint ToString (v : QueryValue) : Completion string :=
  match v with
  | QUndefined => Normal "undefined"
  | QString s => Normal s
  | QArray l =>
      let element (x : QueryValue) : Completion string :=
        match x with QUndefined => Normal EmptyString | _ => ToString x end in
      (fix join (l : list QueryValue) : Completion string :=
         match l with
         | [] => Normal EmptyString
         | [x] => element x
         | x :: l' =>
             match element x with
             | Normal a =>
                 match join l' with
                 | Normal b => Normal (a ++ "," ++ b)
                 | Throws => Throws
                 end
             | Throws => Throws
             end
         end) l
  | QObject o => if own "toString" o then Throws else Normal "[object Object]"
  end.

(** [Number(v)] *)
Definition Number (v : QueryValue) : Completion JS.number :=
  match v with
  | QUndefined => Normal JS.NaN
  | _ =>
      match ToString v with
      | Normal s => Normal (JS.StringToNumber s)
      | Throws => Throws
      end
  end.

Record Query : Type := { limit : QueryValue; page : QueryValue }.
Record Params : Type := { params_name : string }.
Record Body : Type := { body_name : string; body_type : string }.
Record Request : Type := { body : Body; query : Query; params : Params }.

(** The object built by [list]. *)
Record Page : Type :=
  { items : list Pokemon; total : nat; page_limit : JS.number;
    page_page : JS.number }.

(** The JSON documents the handlers send. *)
Inductive Json : Type :=
| DataMessage (msg : string)           (* { data: '...' } *)
| DataPokemon (p : option Pokemon)     (* { data: pokemon }, null if none *)
| DataPage (p : Page)                  (* { data: pokemons } *)
| Total (n : nat)                      (* { total } *)
| Count (n : nat).                     (* { count: countPokemon } *)

Record Response : Type := { status : Z; json : Json }.

(** ** Handlers

    A handler awaits calls on a fresh [PokemonRepository] and sends a
    response, or throws: no handler has a [try], so a TypeError ends it
    with nothing sent.  [insert] resolves to a value of which only the
    truthiness is ever observed. *)
Inductive Handler : Type :=
| Send (r : Response)
| Throw
| AwaitInsert (p : Pokemon) (k : bool -> Handler)
| AwaitFindOne (where_name : string) (k : option Pokemon -> Handler)
| AwaitFindAndCount (take skip : JS.number)
    (k : list Pokemon * nat -> Handler)
| AwaitCount (k : nat -> Handler)
| AwaitClear (k : unit -> Handler).

Definition res (st : Z) (j : Json) : Handler :=
  Send {| status := st; json := j |}.

(** The paginated revision of the controller (the source file whose
    name is not known): [create], [list], [count], [getOne], [delete]. *)
Module PokemonControllerPaged.

Definition create (req : Request) : Handler :=
  let name := body_name (body req) in
  let type := body_type (body req) in
  let pokemon := {| name := name; type := type |} in
  AwaitInsert pokemon (fun createdPokemon =>
    if createdPokemon then res 201 (DataPokemon (Some pokemon))
    else res 500 (DataMessage "Erro ao criar Pokémon.")).

Definition list (req : Request) : Handler :=
  match Number (limit (query req)) with
  | Throws => Throw
  | Normal number_limit =>
      let limit :=
        JS.Math_min (JS.or number_limit (JS.of_Z 50)) (JS.of_Z 100) in
      match Number (page (query req)) with
      | Throws => Throw
      | Normal number_page =>
          let page :=
            JS.Math_max (JS.or number_page (JS.of_Z 1)) (JS.of_Z 1) in
          let offset := JS.mul (JS.sub page (JS.of_Z 1)) limit in
          AwaitFindAndCount limit offset (fun '(items, total) =>
            let pokemons :=
              {| items := items; total := total; page_limit := limit;
                 page_page := page |} in
            res 200 (DataPage pokemons))
      end
  end.

Definition count (req : Request) : Handler :=
  AwaitCount (fun total => res 200 (Total total)).

Definition getOne (req : Request) : Handler :=
  let name := params_name (params req) in
  AwaitFindOne name (fun pokemon =>
    res (match pokemon with Some _ => 200 | None => 404 end)
      (DataPokemon pokemon)).

Definition delete (req : Request) : Handler :=
  AwaitClear (fun _ =>
    res 200 (DataMessage "Pokemons excluídos com sucesso!")).

End PokemonControllerPaged.

(** The revision in [src/endpoints/pokemon/PokemonController.ts]:
    [create], [count], [getOne], [delete]; it has no [list]. *)
Module PokemonController.

Definition create (req : Request) : Handler :=
  let name := body_name (body req) in
  let type := body_type (body req) in
  AwaitInsert {| name := name; type := type |} (fun result =>
    if result then res 201 (DataMessage "Pokémon criado com sucesso!")
    else res 500 (DataMessage "Erro ao criar Pokémon.")).

Definition count (req : Request) : Handler :=
  AwaitCount (fun countPokemon => res 200 (Count countPokemon)).

Definition getOne (req : Request) : Handler :=
  let name := params_name (params req) in
  AwaitFindOne name (fun pokemon =>
    res (match pokemon with Some _ => 200 | None => 404 end)
      (DataPokemon pokemon)).

Definition delete (req : Request) : Handler :=
  AwaitClear (fun _ =>
    res 200 (DataMessage "Pokemons excluídos com sucesso!")).

End PokemonController.

(** ** The record store *)

Module Repository.

(** Modelled from the spec: [Pokemon.repository] is not among the
    sources.  The store is "a persistent table of Pokemon records",
    kept here in store order. *)
Definition Store : Type := list Pokemon.

(** Modelled from the spec: the index a [take] or a [skip] given to the
    absent [Pokemon.repository] stands for.  The "offset" is the
    "zero-based index of the first record returned", so natural numbers
    give a window; a number that is no natural number gives none, and
    the spec says nothing of the read then (see [beyond]). *)
Definition to_index (x : JS.number) : option nat :=
  match x with
  | S754_zero _ => Some 0%nat
  | S754_finite false m e =>
      if 0 <=? e then Some (Z.to_nat (Z.pos m * 2 ^ e))
      else if Z.pos m mod 2 ^ (- e) =? 0
           then Some (Z.to_nat (Z.pos m / 2 ^ (- e)))
           else None
  | _ => None
  end.

(** Modelled from the spec: what the spec leaves to the storage engine
    behind the absent [Pokemon.repository].  [persists] says whether a
    write goes through ("persistence failure" otherwise).  [beyond]
    is the answer to a read whose [take] and [skip] are not both
    natural numbers (negative, fractional, infinite or NaN): any items
    and count, or no answer when the engine refuses; the spec fixes
    neither. *)
Record Engine : Type :=
  { persists : Store -> Pokemon -> bool;
    beyond : JS.number -> JS.number -> Store -> option (list Pokemon * nat) }.

(** Modelled from the spec: [insert] of the absent [Pokemon.repository]
    "persists a new record with the given fields".  The spec fixes no
    place for it in store order; it goes last here, and no statement
    below depends on that. *)
Definition insert (p : Pokemon) (s : Store) : Store := (s ++ [p])%list.

(** Modelled from the spec: [findOne] of the absent [Pokemon.repository]
    is an "exact-match lookup by name".  Names are not unique; of
    several records of the name the first in store order is given. *)
Definition findOne (n : string) (s : Store) : option Pokemon :=
  find (fun p => String.eqb (name p) n) s.

(** Modelled from the spec: [findAndCount] of the absent
    [Pokemon.repository] gives "the page slice" from the offset on and
    "the full unfiltered count". *)
Definition findAndCount (take skip : nat) (s : Store)
  : list Pokemon * nat :=
  (firstn take (skipn skip s), List.length s).

(** Modelled from the spec: [count] of the absent [Pokemon.repository]
    "returns total record count". *)
Definition count (s : Store) : nat := List.length s.

(** Modelled from the spec: [clear] of the absent [Pokemon.repository]
    "removes ALL records unconditionally". *)
Definition clear (s : Store) : Store := [].

End Repository.

(** What a client sees of a handler: the response sent, or none when the
    handler throws or an awaited call fails and nothing catches it. *)
Inductive Outcome : Type :=
| Sent (r : Response)
| Uncaught.

(** Modelled from the spec: running a handler against the store of the
    absent [Pokemon.repository], on a given engine.  A write persists
    or fails as the engine decides, a failed [insert] resolving to a
    falsy value ("HTTP 500 on persistence failure").  A read of a
    window of two indices gives the slice and the count; any other read
    is answered by the engine, or fails (section 7(c): such conditions
    "propagate as uncaught failures").  No read changes the store. *)
Fixpoint run (engine : Repository.Engine) (h : Handler)
  (s : Repository.Store) : Outcome * Repository.Store :=
  match h with
  | Send r => (Sent r, s)
  | Throw => (Uncaught, s)
  | AwaitInsert p k =>
      if Repository.persists engine s p
      then run engine (k true) (Repository.insert p s)
      else run engine (k false) s
  | AwaitFindOne n k => run engine (k (Repository.findOne n s)) s
  | AwaitFindAndCount take skip k =>
      match Repository.to_index take, Repository.to_index skip with
      | Some t, Some o => run engine (k (Repository.findAndCount t o s)) s
      | _, _ =>
          match Repository.beyond engine take skip s with
          | Some answer => run engine (k answer) s
          | None => (Uncaught, s)
          end
      end
  | AwaitCount k => run engine (k (Repository.count s)) s
  | AwaitClear k => run engine (k tt) (Repository.clear s)
  end.

(** ** Vocabulary of the statements *)

(** [Number(req.query.limit)] and [Number(req.query.page)] *)
Definition query_limit (req : Request) : Completion JS.number :=
  Number (limit (query req)).
Definition query_page (req : Request) : Completion JS.number :=
  Number (page (query req)).

(** [Math.min(x || 50, 100)] *)
Definition effective_limit (x : JS.number) : JS.number :=
  JS.Math_min (JS.or x (JS.of_Z 50)) (JS.of_Z 100).

(** [Math.max(x || 1, 1)] *)
Definition effective_page (x : JS.number) : JS.number :=
  JS.Math_max (JS.or x (JS.of_Z 1)) (JS.of_Z 1).

(** A handler that only awaits reads. *)
Fixpoint reads_only (h : Handler) : Prop :=
  match h with
  | Send _ | Throw => True
  | AwaitInsert _ _ | AwaitClear _ => False
  | AwaitFindOne _ k => forall a, reads_only (k a)
  | AwaitFindAndCount _ _ k => forall a, reads_only (k a)
  | AwaitCount k => forall a, reads_only (k a)
  end.

(** The handler queries the window [lim], [off] and answers 200,
    echoing [lim] and [pg] around whatever the store gives. *)
Definition lists_with (h : Handler) (lim pg off : JS.number) : Prop :=
  exists k,
    h = AwaitFindAndCount lim off k /\
    forall its tot,
      k (its, tot) =
      res 200 (DataPage {| items := its; total := tot;
                           page_limit := lim; page_page := pg |}).

(** The handler uses the limit [L]: every window it queries and every
    page it echoes has the limit [L]; it does query one when the other
    parameter, the page, converts to a number ([other] is [Normal]), and
    throws before any call when that conversion throws. *)
Definition uses_limit (h : Handler) (other : Completion JS.number)
  (L : JS.number) : Prop :=
  (forall lim pg off, lists_with h lim pg off -> lim = L) /\
  (forall y, other = Normal y -> exists pg off, lists_with h L pg off) /\
  (other = Throws -> h = Throw).

(** The handler uses the page [P], in the same sense; the other
    parameter is the limit. *)
Definition uses_page (h : Handler) (other : Completion JS.number)
  (P : JS.number) : Prop :=
  (forall lim pg off, lists_with h lim pg off -> pg = P) /\
  (forall x, other = Normal x -> exists lim off, lists_with h lim P off) /\
  (other = Throws -> h = Throw).

Definition ok (j : Json) : Outcome := Sent {| status := 200; json := j |}.

Definition deleted : Json := DataMessage "Pokemons excluídos com sucesso!".

(** The contract of a [getOne] handler.  It awaits one lookup by the
    name of the path and answers 200 with what was found, or 404 with
    null; so against the store it answers 200 with a record of that name
    when there is one, 404 with null when there is none, and 404 with
    null on the empty store. *)
Definition getOne_contract (getOne : Request -> Handler) : Prop :=
  forall (engine : Repository.Engine)
         (s : Repository.Store) (req : Request),
    let n := params_name (params req) in
    (exists k,
       getOne req = AwaitFindOne n k /\
       (forall p, k (Some p) = res 200 (DataPokemon (Some p))) /\
       k None = res 404 (DataPokemon None)) /\
    ((exists p, In p s /\ name p = n) ->
     exists p, In p s /\ name p = n /\
       run engine (getOne req) s =
       (Sent {| status := 200; json := DataPokemon (Some p) |}, s)) /\
    ((forall p, In p s -> name p <> n) ->
     run engine (getOne req) s =
     (Sent {| status := 404; json := DataPokemon None |}, s)) /\
    run engine (getOne req) [] =
    (Sent {| status := 404; json := DataPokemon None |}, []).

(** The contract of a [create] handler: before anything else it awaits
    the insert of exactly the name and type of the request body, then
    answers 201 with [created] when the insert resolves truthy, and 500
    with the fixed message when it resolves falsy. *)
Definition create_contract (create : Request -> Handler)
  (created : Pokemon -> Json) : Prop :=
  forall req : Request,
    let p := {| name := body_name (body req);
                type := body_type (body req) |} in
    exists k,
      create req = AwaitInsert p k /\
      k true = Send {| status := 201; json := created p |} /\
      k false =
      Send {| status := 500;
              json := DataMessage "Erro ao criar Pokémon." |}.

(** The contract of a [delete] handler called twice in a row. *)
Definition delete_twice (delete : Request -> Handler) : Prop :=
  forall (engine : Repository.Engine)
         (s : Repository.Store) (req1 req2 : Request),
    let '(out1, s1) := run engine (delete req1) s in
    let '(out2, s2) := run engine (delete req2) s1 in
    out1 = ok deleted /\ out2 = ok deleted /\
    s2 = s1 /\ Repository.count s2 = 0%nat.

(** *** Sample requests and stores *)

(** [GET /pokemon?limit=l&page=p] *)
Definition request (l p : QueryValue) : Request :=
  {| body := {| body_name := EmptyString; body_type := EmptyString |};
     query := {| limit := l; page := p |};
     params := {| params_name := EmptyString |} |}.

(** [GET /pokemon?limit=-Infinity&page=0] *)
Definition request_minus_infinity : Request :=
  request (QString "-Infinity") (QString "0").

(** The value of [limit] in [GET /pokemon?limit[toString]=x] *)
Definition shadowed_toString : QueryValue :=
  QObject [("toString", QString "x")].

(** [GET /pokemon/n] *)
Definition named (n : string) : Request :=
  {| body := {| body_name := EmptyString; body_type := EmptyString |};
     query := {| limit := QUndefined; page := QUndefined |};
     params := {| params_name := n |} |}.

(** [POST /pokemon] with the body of the spec's scenario. *)
Definition pikachu : Request :=
  {| body := {| body_name := "Pikachu"; body_type := "Electric" |};
     query := {| limit := QUndefined; page := QUndefined |};
     params := {| params_name := EmptyString |} |}.

Definition pokemon (n t : string) : Pokemon := {| name := n; type := t |}.

Definition twelve : Repository.Store :=
  [ pokemon "Bulbasaur" "Grass"; pokemon "Ivysaur" "Grass";
    pokemon "Venusaur" "Grass"; pokemon "Charmander" "Fire";
    pokemon "Charmeleon" "Fire"; pokemon "Charizard" "Fire";
    pokemon "Squirtle" "Water"; pokemon "Wartortle" "Water";
    pokemon "Blastoise" "Water"; pokemon "Caterpie" "Bug";
    pokemon "Metapod" "Bug"; pokemon "Butterfree" "Bug" ].

(** An engine that takes every write and refuses a read beyond the
    indices; one that takes no write and refuses the same; and one that
    takes every write and answers a read beyond the indices with every
    record. *)
Definition always : Repository.Engine :=
  {| Repository.persists := fun _ _ => true;
     Repository.beyond := fun _ _ _ => None |}.
Definition never : Repository.Engine :=
  {| Repository.persists := fun _ _ => false;
     Repository.beyond := fun _ _ _ => None |}.
Definition lenient : Repository.Engine :=
  {| Repository.persists := fun _ _ => true;
     Repository.beyond := fun _ _ s => Some (s, List.length s) |}.

(** *** Integers among the numbers *)

(** The number of binary digits of a positive integer. *)
Definition digits (p : positive) : Z := Z.pos (digits2_pos p).

(** The binary64 of a positive integer of at most 53 bits: the integer
    shifted up to a mantissa of 53 bits, with the exponent that undoes
    the shift. *)
Definition integer (p : positive) : JS.number :=
  S754_finite false (Pos.shiftl p (Z.to_N (53 - digits p))) (digits p - 53).

(** *** What a handler may send *)

(** [sends h r]: the handler sends [r] for some way the calls it awaits
    resolve.  A handler that throws sends nothing. *)
Inductive sends : Handler -> Response -> Prop :=
| sends_now r : sends (Send r) r
| sends_insert p k a r : sends (k a) r -> sends (AwaitInsert p k) r
| sends_findOne n k a r : sends (k a) r -> sends (AwaitFindOne n k) r
| sends_findAndCount t o k a r :
    sends (k a) r -> sends (AwaitFindAndCount t o k) r
| sends_count k a r : sends (k a) r -> sends (AwaitCount k) r
| sends_clear k a r : sends (k a) r -> sends (AwaitClear k) r.

(** Every response the handler may send has its status in [l]. *)
Definition statuses (h : Handler) (l : list Z) : Prop :=
  forall r, sends h r -> In (status r) l.

(** The items of a [list] response, none for any other outcome. *)
Definition items_of (o : Outcome) : list Pokemon :=
  match o with
  | Sent {| json := DataPage p |} => items p
  | _ => []
  end.

(** The contract of a [create] handler followed by a [getOne] handler of
    the created name: after a 201, the lookup answers 200 with a record
    of that name, which is the created record itself when the name was
    new to the store. *)
Definition create_getOne_round_trip (create getOne : Request -> Handler)
  : Prop :=
  forall (engine : Repository.Engine)
         (s s' : Repository.Store) (req req' : Request) (r : Response),
    params_name (params req') = body_name (body req) ->
    run engine (create req) s = (Sent r, s') ->
    status r = 201 ->
    exists p,
      name p = body_name (body req) /\
      run engine (getOne req') s' =
      (Sent {| status := 200; json := DataPokemon (Some p) |}, s') /\
      ((forall q, In q s -> name q <> body_name (body req)) ->
       p = {| name := body_name (body req);
              type := body_type (body req) |}).

(** * Properties *)

(** ** [Number] on sample parameters *)

(** Replaces a closed number by its value. *)
Ltac evaluate t :=
  let v := eval vm_compute in t in
  replace t with v in * by (vm_compute; reflexivity).

Example Number_decimal :
  Number (QString "5") = Normal (JS.of_Z 5) /\
  Number (QString " 150 ") = Normal (JS.of_Z 150) /\
  Number (QString "1e2") = Normal (JS.of_Z 100) /\
  Number (QString "0x1F") = Normal (JS.of_Z 31) /\
  Number (QString "2.50")
  = Normal (S754_finite false 5629499534213120 (-51)).
Proof. vm_compute. repeat split. Qed.

Example Number_falsy :
  Number QUndefined = Normal JS.NaN /\
  Number (QString "abc") = Normal JS.NaN /\
  Number (QString "12px") = Normal JS.NaN /\
  Number (QArray [QString "1"; QString "2"]) = Normal JS.NaN /\
  Number (QObject [("a", QString "1")]) = Normal JS.NaN /\
  Number (QObject [("valueOf", QString "1")]) = Normal JS.NaN /\
  Number (QString EmptyString) = Normal (S754_zero false) /\
  Number (QString "-0") = Normal (S754_zero true).
Proof. vm_compute. repeat split. Qed.

Example Number_rounds_to_nearest_even :
  Number (QString "0.1")
  = Normal (S754_finite false 7205759403792794 (-56)) /\
  Number (QString "9007199254740993")
  = Normal (JS.of_Z 9007199254740992) /\
  Number (QString "1.7976931348623159e308")
  = Normal (S754_infinity false) /\
  Number (QString "-Infinity") = Normal (S754_infinity true) /\
  Number (QArray [QString "7"]) = Normal (JS.of_Z 7).
Proof. vm_compute. repeat split. Qed.

(** An object with a key [toString] of its own cannot be converted,
    alone or inside an array. *)
Example Number_throws :
  Number shadowed_toString = Throws /\
  Number (QArray [QString "1"; shadowed_toString]) = Throws /\
  Number (QObject [("a", QString "1"); ("toString", QArray [])]) = Throws.
Proof. vm_compute. repeat split. Qed.

(** ** Clamping *)

Lemma of_Z_1 : JS.of_Z 1 = S754_finite false 4503599627370496 (-52).
Proof. vm_compute. reflexivity. Qed.

Lemma of_Z_50 : JS.of_Z 50 = S754_finite false 7036874417766400 (-47).
Proof. vm_compute. reflexivity. Qed.

Lemma of_Z_100 : JS.of_Z 100 = S754_finite false 7036874417766400 (-46).
Proof. vm_compute. reflexivity. Qed.

Create Rewrite HintDb literals.
#[local] Hint Rewrite of_Z_1 of_Z_50 of_Z_100 : literals.

(** Whatever lies strictly above a positive number is truthy. *)
Lemma lt_truthy (c x : JS.number) :
  JS.lt c x = true -> JS.lt (JS.of_Z 0) c = true -> JS.ToBoolean x = true.
Proof.
  destruct x as [sx | sx | | sx mx ex]; try reflexivity;
    destruct c as [sc | sc | | sc mc ec]; try discriminate;
    destruct sc; discriminate.
Qed.

Lemma Math_min_above (x y : JS.number) :
  JS.lt y x = true -> JS.Math_min x y = y.
Proof.
  intros H.
  destruct x as [sx | sx | | sx mx ex], y as [sy | sy | | sy my ey];
    try discriminate H; unfold JS.Math_min; rewrite H; reflexivity.
Qed.

Lemma effective_limit_capped (x : JS.number) :
  JS.lt (JS.of_Z 100) x = true -> effective_limit x = JS.of_Z 100.
Proof.
  intros H. unfold effective_limit, JS.or.
  rewrite (lt_truthy _ _ H) by (vm_compute; reflexivity).
  now apply Math_min_above.
Qed.

Lemma effective_page_floored (x : JS.number) :
  JS.le x (JS.of_Z 0) = true -> effective_page x = JS.of_Z 1.
Proof.
  intros H. unfold effective_page, JS.or. autorewrite with literals.
  destruct x as [sx | sx | | sx mx ex]; simpl.
  - reflexivity.
  - destruct sx; [reflexivity | discriminate H].
  - discriminate H.
  - destruct sx; [reflexivity | discriminate H].
Qed.

(** The effective limit is a nonzero finite number unless [limit]
    parses to minus infinity, which [Math.min] lets through. *)
Lemma effective_limit_finite (x : JS.number) :
  x <> S754_infinity true ->
  exists s m e, effective_limit x = S754_finite s m e.
Proof.
  intros Hx. unfold effective_limit, JS.or. autorewrite with literals.
  destruct x as [sx | sx | | sx mx ex]; simpl.
  - do 3 eexists. vm_compute. reflexivity.
  - destruct sx; [now destruct Hx |].
    do 3 eexists. vm_compute. reflexivity.
  - do 3 eexists. vm_compute. reflexivity.
  - unfold JS.Math_min. destruct (JS.lt _ _); eauto.
Qed.

(** [(1 - 1) * limit] is a zero for every finite limit. *)
Lemma first_page_offset (lim : JS.number) :
  (exists s m e, lim = S754_finite s m e) ->
  JS.eq (JS.mul (JS.sub (JS.of_Z 1) (JS.of_Z 1)) lim) (JS.of_Z 0) = true.
Proof.
  intros (s & m & e & ->).
  evaluate (JS.sub (JS.of_Z 1) (JS.of_Z 1)). reflexivity.
Qed.

(** ** Order on the numbers *)

(** Comparison of numbers is antisymmetric. *)
Lemma SFcompare_antisym (x y : JS.number) :
  SFcompare y x = option_map CompOpp (SFcompare x y).
Proof.
  destruct x as [sx | sx | | sx mx ex], y as [sy | sy | | sy my ey];
    try reflexivity; simpl;
    try (destruct sx; reflexivity); try (destruct sy; reflexivity);
    try (destruct sx, sy; reflexivity).
  destruct sx, sy; try reflexivity;
    rewrite (Z.compare_antisym ey ex);
    destruct (ey ?= ex); simpl; try reflexivity;
    rewrite (Pos.compare_cont_antisym mx my Eq); simpl;
    destruct (Pos.compare_cont Eq mx my); reflexivity.
Qed.

Lemma not_lt_le (x y : JS.number) :
  x <> S754_nan -> y <> S754_nan -> JS.lt y x = false -> JS.le x y = true.
Proof.
  unfold JS.lt, JS.le, SFltb, SFleb. rewrite (SFcompare_antisym x y).
  intros Hx Hy.
  destruct (SFcompare x y) as [[] |] eqn:E; simpl;
    try reflexivity; try discriminate.
  destruct x as [sx | sx | | sx mx ex], y as [sy | sy | | sy my ey];
    try congruence; discriminate E.
Qed.

(** ** Integers are computed exactly *)

Lemma digits_pos p : 0 < digits p.
Proof. unfold digits. lia. Qed.

Lemma digits_bounds p : 2 ^ (digits p - 1) <= Z.pos p < 2 ^ digits p.
Proof.
  unfold digits. induction p as [p IH | p IH |]; simpl digits2_pos.
  - rewrite Pos2Z.inj_succ.
    replace (Z.succ (Z.pos (digits2_pos p)) - 1)
      with (Z.succ (Z.pos (digits2_pos p) - 1)) by lia.
    rewrite !Z.pow_succ_r by lia. lia.
  - rewrite Pos2Z.inj_succ.
    replace (Z.succ (Z.pos (digits2_pos p)) - 1)
      with (Z.succ (Z.pos (digits2_pos p) - 1)) by lia.
    rewrite !Z.pow_succ_r by lia. lia.
  - simpl. lia.
Qed.

(** The digits of a positive are determined by a power-of-two bracket. *)
Lemma digits_unique p d :
  2 ^ (d - 1) <= Z.pos p < 2 ^ d -> 0 < d -> digits p = d.
Proof.
  intros [Hl Hu] Hd. pose proof (digits_bounds p) as [Bl Bu].
  pose proof (digits_pos p) as Hp.
  destruct (Z.lt_trichotomy (digits p) d) as [Lt | [E | Gt]]; [| exact E |].
  - assert (2 ^ digits p <= 2 ^ (d - 1))
      by (apply Z.pow_le_mono_r; lia).
    lia.
  - assert (2 ^ d <= 2 ^ (digits p - 1))
      by (apply Z.pow_le_mono_r; lia).
    lia.
Qed.

Lemma iter_xO_value p k : Z.pos (Pos.iter xO p k) = Z.pos p * 2 ^ Z.pos k.
Proof.
  induction k as [| k IH] using Pos.peano_ind.
  - simpl. lia.
  - rewrite Pos.iter_succ, Pos2Z.inj_succ, Z.pow_succ_r by lia. lia.
Qed.

Lemma shiftl_value p n : Z.pos (Pos.shiftl p n) = Z.pos p * 2 ^ Z.of_N n.
Proof.
  destruct n as [| k]; [simpl; lia | apply iter_xO_value].
Qed.

Lemma digits_shiftl p n : digits (Pos.shiftl p n) = digits p + Z.of_N n.
Proof.
  apply digits_unique; [| pose proof (digits_pos p); lia].
  rewrite shiftl_value. pose proof (digits_bounds p) as [Bl Bu].
  pose proof (digits_pos p).
  replace (digits p + Z.of_N n - 1) with ((digits p - 1) + Z.of_N n) by lia.
  rewrite !Z.pow_add_r by lia.
  assert (0 < 2 ^ Z.of_N n) by (apply Z.pow_pos_nonneg; lia). nia.
Qed.

Lemma iter_pos_iter {A} (f : A -> A) k x : iter_pos f k x = Pos.iter f x k.
Proof.
  revert x. induction k as [k IH | k IH |]; intros x; simpl.
  - rewrite !IH, <- !Pos.iter_swap. reflexivity.
  - rewrite !IH. reflexivity.
  - reflexivity.
Qed.

Lemma shr_exact q k :
  iter_pos shr_1 k (Build_shr_record (Z.pos (Pos.iter xO q k)) false false)
  = Build_shr_record (Z.pos q) false false.
Proof.
  rewrite iter_pos_iter.
  induction k as [| k IH] using Pos.peano_ind.
  - reflexivity.
  - rewrite (Pos.iter_succ_r k _ shr_1), (Pos.iter_succ k _ xO).
    simpl shr_1. exact IH.
Qed.

Lemma emin_value : emin JS.prec JS.emax = -1074.
Proof. reflexivity. Qed.

(** Rounding a mantissa that is a 53-bit one followed by [n] zero bits
    is exact. *)
Lemma round_aux_exact (s : bool) (M q : positive) (e n : Z) :
  Z.pos M = Z.pos q * 2 ^ n -> 0 <= n -> digits q = 53 ->
  -1074 <= e + n <= 971 ->
  binary_round_aux JS.prec JS.emax s (Z.pos M) e loc_Exact
  = S754_finite s q (e + n).
Proof.
  intros HM Hn Hq He.
  assert (EM : M = Pos.shiftl q (Z.to_N n)).
  { apply Pos2Z.inj. rewrite shiftl_value, HM, Z2N.id by lia. reflexivity. }
  subst M. clear HM.
  unfold binary_round_aux, shr_fexp, fexp. simpl Zdigits2.
  fold (digits (Pos.shiftl q (Z.to_N n))).
  rewrite digits_shiftl, Hq, Z2N.id by lia.
  change (emin JS.prec JS.emax) with (-1074). unfold JS.prec.
  replace (Z.max (53 + n + e - 53) (-1074) - e) with n by lia.
  assert (S1 : shr (shr_record_of_loc
                      (Z.pos (Pos.shiftl q (Z.to_N n))) loc_Exact) e n
               = (Build_shr_record (Z.pos q) false false, e + n)).
  { unfold shr. destruct n as [| k | k]; simpl; [| | lia].
    - f_equal. lia.
    - rewrite shr_exact. reflexivity. }
  rewrite S1. cbn [shr_m loc_of_shr_record round_nearest_even Zdigits2].
  fold (digits q). rewrite Hq.
  replace (Z.max (53 + (e + n) - 53) (-1074) - (e + n)) with 0 by lia.
  cbn [shr shr_record_of_loc shr_m].
  unfold JS.emax.
  replace (e + n <=? 1024 - 53) with true by (symmetry; apply Z.leb_le; lia).
  reflexivity.
Qed.

Lemma integer_mantissa p :
  digits p <= 53 ->
  Z.pos (Pos.shiftl p (Z.to_N (53 - digits p))) = Z.pos p * 2 ^ (53 - digits p)
  /\ digits (Pos.shiftl p (Z.to_N (53 - digits p))) = 53.
Proof.
  intros H. rewrite shiftl_value, digits_shiftl, Z2N.id by lia. split; lia.
Qed.

(** Rounding an integer of at most 53 bits, however many zero bits
    follow it in the mantissa, is exact. *)
Lemma round_integer (s : bool) (M p : positive) (j : Z) :
  Z.pos M = Z.pos p * 2 ^ j -> 0 <= j -> digits p <= 53 ->
  binary_round JS.prec JS.emax s M (- j)
  = (if s then SFopp (integer p) else integer p).
Proof.
  intros HM Hj Hp.
  destruct (integer_mantissa p Hp) as [Vq Dq].
  pose proof (digits_pos p) as Dp.
  assert (DM : digits M = digits p + j).
  { apply digits_unique; [| lia]. rewrite HM.
    pose proof (digits_bounds p) as [Bl Bu].
    replace (digits p + j - 1) with ((digits p - 1) + j) by lia.
    rewrite !Z.pow_add_r by lia.
    assert (0 < 2 ^ j) by (apply Z.pow_pos_nonneg; lia). nia. }
  unfold binary_round, fexp. fold (digits M). rewrite DM.
  change (emin JS.prec JS.emax) with (-1074). unfold JS.prec.
  replace (Z.max (digits p + j + - j - 53) (-1074)) with (digits p - 53) by lia.
  unfold shl_align.
  assert (R : forall M' e n, Z.pos M' = Z.pos p * 2 ^ (53 - digits p) * 2 ^ n ->
            0 <= n -> e + n = digits p - 53 ->
            binary_round_aux JS.prec JS.emax s (Z.pos M') e loc_Exact
            = (if s then SFopp (integer p) else integer p)).
  { intros M' e n HM' Hn He. rewrite <- Vq in HM'.
    rewrite (round_aux_exact s M' _ e n HM' Hn Dq) by lia.
    rewrite He. destruct s; reflexivity. }
  destruct (digits p - 53 - - j) as [| k | k] eqn:E.
  - apply (R M (- j) (digits p + j - 53)); try lia.
    rewrite HM, <- Z.mul_assoc, <- Z.pow_add_r by lia. f_equal. f_equal. lia.
  - apply (R M (- j) (digits p + j - 53)); try lia.
    rewrite HM, <- Z.mul_assoc, <- Z.pow_add_r by lia. f_equal. f_equal. lia.
  - apply (R _ (digits p - 53) 0); try lia.
    rewrite iter_xO_value, HM, Z.pow_0_r, Z.mul_1_r, <- Z.mul_assoc,
      <- Z.pow_add_r by lia.
    f_equal. f_equal. lia.
Qed.

Lemma of_Z_integer p : digits p <= 53 -> JS.of_Z (Z.pos p) = integer p.
Proof.
  intros H. unfold JS.of_Z, binary_normalize.
  apply (round_integer false p p 0); [lia | lia | exact H].
Qed.

Lemma digits_le_53 p : Z.pos p < 2 ^ 53 -> digits p <= 53.
Proof.
  intros H. pose proof (digits_bounds p) as [Bl _].
  destruct (Z_le_gt_dec (digits p) 53) as [L | G]; [exact L |].
  assert (2 ^ 53 <= 2 ^ (digits p - 1)) by (apply Z.pow_le_mono_r; lia). lia.
Qed.

Lemma digits_mul_lower a b : digits a + digits b - 1 <= digits (a * b).
Proof.
  pose proof (digits_bounds a) as [La _].
  pose proof (digits_bounds b) as [Lb _].
  pose proof (digits_bounds (a * b)) as [_ U].
  pose proof (digits_pos a). pose proof (digits_pos b).
  pose proof (digits_pos (a * b)).
  assert (P : 2 ^ (digits a - 1 + (digits b - 1)) <= Z.pos (a * b)).
  { rewrite Z.pow_add_r, Pos2Z.inj_mul by lia.
    apply Z.mul_le_mono_nonneg; try lia; apply Z.pow_nonneg; lia. }
  assert (Q : 2 ^ (digits a - 1 + (digits b - 1)) < 2 ^ digits (a * b)) by lia.
  apply Z.pow_lt_mono_r_iff in Q; lia.
Qed.

Lemma digits_mono a b : Z.pos a <= Z.pos b -> digits a <= digits b.
Proof.
  intros H. pose proof (digits_bounds a) as [La _].
  pose proof (digits_bounds b) as [_ Ub].
  assert (Q : 2 ^ (digits a - 1) < 2 ^ digits b) by lia.
  pose proof (digits_pos b).
  apply Z.pow_lt_mono_r_iff in Q; lia.
Qed.

(** The product of two integers is exact when it has at most 53 bits. *)
Lemma mul_integer a b :
  digits (a * b) <= 53 ->
  JS.mul (integer a) (integer b) = integer (a * b).
Proof.
  intros Hc.
  assert (Ha : digits a <= 53)
    by (transitivity (digits (a * b)); [apply digits_mono; nia | exact Hc]).
  assert (Hb : digits b <= 53)
    by (transitivity (digits (a * b)); [apply digits_mono; nia | exact Hc]).
  destruct (integer_mantissa a Ha) as [Va _].
  destruct (integer_mantissa b Hb) as [Vb _].
  destruct (integer_mantissa (a * b) Hc) as [Vc Dc].
  pose proof (digits_mul_lower a b) as Hl.
  pose proof (digits_pos a). pose proof (digits_pos b).
  unfold JS.mul, integer at 1 2, SFmul. cbn [xorb].
  set (n := 53 + digits (a * b) - digits a - digits b).
  assert (Hn : 0 <= n) by (unfold n; lia).
  set (q := Pos.shiftl (a * b) (Z.to_N (53 - digits (a * b)))) in *.
  set (ma := Pos.shiftl a (Z.to_N (53 - digits a))) in *.
  set (mb := Pos.shiftl b (Z.to_N (53 - digits b))) in *.
  assert (HM : Z.pos (ma * mb) = Z.pos q * 2 ^ n).
  { rewrite Pos2Z.inj_mul, Va, Vb, Vc, Pos2Z.inj_mul. unfold n.
    replace (53 + digits (a * b) - digits a - digits b)
      with ((53 - digits a) + (53 - digits b) - (53 - digits (a * b))) by lia.
    set (x := 53 - digits a). set (y := 53 - digits b).
    set (z := 53 - digits (a * b)).
    assert (0 <= x) by (unfold x; lia). assert (0 <= y) by (unfold y; lia).
    assert (0 <= z) by (unfold z; lia).
    assert (z <= x + y) by (unfold x, y, z; lia).
    replace (Z.pos a * 2 ^ x * (Z.pos b * 2 ^ y))
      with (Z.pos a * Z.pos b * (2 ^ x * 2 ^ y)) by ring.
    replace (2 ^ x * 2 ^ y) with (2 ^ z * 2 ^ (x + y - z))
      by (rewrite <- !Z.pow_add_r by lia; f_equal; lia).
    ring. }
  rewrite (round_aux_exact false _ q _ n HM Hn Dc) by (unfold n; lia).
  unfold integer. fold q. f_equal. unfold n. lia.
Qed.

Lemma shl_align_value mx ex ex' :
  ex' <= ex -> Z.pos (fst (shl_align mx ex ex')) = Z.pos mx * 2 ^ (ex - ex').
Proof.
  intros H. unfold shl_align.
  destruct (ex' - ex) as [| k | k] eqn:E; cbn [fst].
  - replace (ex - ex') with 0 by lia. lia.
  - lia.
  - rewrite iter_xO_value. f_equal. f_equal. lia.
Qed.

(** Taking 1 from a positive integer of at most 53 bits is exact. *)
Lemma sub_integer_1 a :
  digits a <= 53 -> JS.sub (integer a) (JS.of_Z 1) = JS.of_Z (Z.pos a - 1).
Proof.
  intros Ha. pose proof (digits_pos a) as Dp.
  destruct (integer_mantissa a Ha) as [Va _].
  rewrite (of_Z_integer 1) by (vm_compute; discriminate).
  unfold JS.sub, integer at 1 2, SFsub.
  change (digits 1) with 1. change (1 - 53) with (-52).
  rewrite Z.min_r by lia.
  rewrite !shl_align_value by lia. cbn [cond_Zopp].
  rewrite Va. change (Z.pos (Pos.shiftl 1 (Z.to_N (53 - 1)))) with (2 ^ 52).
  replace (Z.pos a * 2 ^ (53 - digits a) * 2 ^ (digits a - 53 - -52)
           - 2 ^ 52 * 2 ^ (-52 - -52))
    with ((Z.pos a - 1) * 2 ^ 52).
  2:{ rewrite <- Z.mul_assoc, <- Z.pow_add_r by lia.
      replace (53 - digits a + (digits a - 53 - -52)) with 52 by lia.
      change (2 ^ (-52 - -52)) with 1. ring. }
  destruct (Z.pos a - 1) as [| p | p] eqn:E; [reflexivity | | lia].
  assert (Hp : digits p <= 53)
    by (transitivity (digits a); [apply digits_mono; lia | exact Ha]).
  rewrite (of_Z_integer p Hp).
  assert (exists M, Z.pos p * 2 ^ 52 = Z.pos M) as [M HM].
  { destruct (Z.pos p * 2 ^ 52) as [| M | M] eqn:F; try lia. eauto. }
  rewrite HM. unfold binary_normalize.
  apply (round_integer false M p 52); [lia | lia | exact Hp].
Qed.

(** The index an integer stands for is the integer. *)
Lemma to_index_integer p :
  digits p <= 53 -> Repository.to_index (integer p) = Some (Pos.to_nat p).
Proof.
  intros Hp. destruct (integer_mantissa p Hp) as [Vp _].
  pose proof (digits_pos p) as Dp.
  unfold Repository.to_index, integer.
  destruct (Z.leb_spec 0 (digits p - 53)) as [L | L].
  - assert (E : digits p = 53) by lia.
    rewrite Vp, E. cbn [Z.sub Z.add Z.opp Z.pos_sub Z.pow Z.pow_pos].
    f_equal. rewrite !Z.mul_1_r. apply Z2Nat.inj_pos.
  - rewrite Vp. replace (- (digits p - 53)) with (53 - digits p) by lia.
    assert (N : 2 ^ (53 - digits p) <> 0) by (apply Z.pow_nonzero; lia).
    rewrite (Z.mod_mul _ _ N), Z.eqb_refl, (Z.div_mul _ _ N).
    reflexivity.
Qed.

Lemma le_not_lt (x y : JS.number) : JS.le x y = true -> JS.lt y x = false.
Proof.
  unfold JS.lt, JS.le, SFltb, SFleb. rewrite (SFcompare_antisym x y).
  destruct (SFcompare x y) as [[] |]; simpl; congruence.
Qed.

(** Integers of at most 53 bits are ordered as numbers the way they are
    as integers. *)
Lemma le_integer (p q : positive) :
  Z.pos p <= Z.pos q -> digits q <= 53 ->
  JS.le (integer p) (integer q) = true.
Proof.
  intros H Hq. pose proof (digits_mono p q H) as D.
  assert (Hp : digits p <= 53) by lia.
  destruct (integer_mantissa p Hp) as [Vp _].
  destruct (integer_mantissa q Hq) as [Vq _].
  unfold JS.le, SFleb, integer, SFcompare.
  destruct (Z.compare_spec (digits p - 53) (digits q - 53)) as [E | L | G];
    [| reflexivity | lia].
  change (Pos.compare_cont Eq ?a ?b) with (Pos.compare a b).
  rewrite Pos2Z.inj_compare, Vp, Vq.
  replace (digits q) with (digits p) by lia.
  assert (0 < 2 ^ (53 - digits p)) by (apply Z.pow_pos_nonneg; lia).
  destruct (Z.compare_spec (Z.pos p * 2 ^ (53 - digits p))
              (Z.pos q * 2 ^ (53 - digits p))); try reflexivity. nia.
Qed.

(** ** Clamping, both ways *)

Lemma Math_max_below (x y : JS.number) :
  JS.lt x y = true -> JS.Math_max x y = y.
Proof.
  intros H.
  destruct x as [sx | sx | | sx mx ex], y as [sy | sy | | sy my ey];
    try discriminate H; unfold JS.Math_max; rewrite H; reflexivity.
Qed.

Lemma effective_limit_kept (x : JS.number) :
  JS.ToBoolean x = true -> JS.le x (JS.of_Z 100) = true ->
  effective_limit x = x.
Proof.
  intros T L. unfold effective_limit, JS.or. rewrite T.
  apply le_not_lt in L. rewrite of_Z_100 in *.
  destruct x as [sx | sx | | sx mx ex]; try discriminate T;
    unfold JS.Math_min; rewrite L; reflexivity.
Qed.

Lemma effective_page_kept (x : JS.number) :
  JS.le (JS.of_Z 1) x = true -> effective_page x = x.
Proof.
  intros L. unfold effective_page, JS.or. rewrite of_Z_1 in *.
  assert (T : JS.ToBoolean x = true)
    by (destruct x as [sx | [] | | [] mx ex]; try discriminate L; reflexivity).
  rewrite T. apply le_not_lt in L.
  destruct x as [sx | sx | | sx mx ex]; try discriminate T;
    unfold JS.Math_max; rewrite L; reflexivity.
Qed.

Lemma effective_limit_falsy (x : JS.number) :
  JS.ToBoolean x = false -> effective_limit x = JS.of_Z 50.
Proof.
  intros T. unfold effective_limit, JS.or. rewrite T.
  vm_compute. reflexivity.
Qed.

Lemma effective_page_falsy (x : JS.number) :
  JS.ToBoolean x = false -> effective_page x = JS.of_Z 1.
Proof.
  intros T. unfold effective_page, JS.or. rewrite T.
  vm_compute. reflexivity.
Qed.

Lemma effective_limit_bounds (x : JS.number) :
  JS.le (effective_limit x) (JS.of_Z 100) = true /\
  JS.ToBoolean (effective_limit x) = true.
Proof.
  destruct (JS.ToBoolean x) eqn:T.
  - destruct (JS.lt (JS.of_Z 100) x) eqn:L.
    + rewrite (effective_limit_capped x L). split; vm_compute; reflexivity.
    + assert (Hx : x <> S754_nan) by (intros ->; discriminate T).
      assert (Le : JS.le x (JS.of_Z 100) = true)
        by (apply not_lt_le; auto; vm_compute; discriminate).
      rewrite (effective_limit_kept x T Le). split; assumption.
  - rewrite (effective_limit_falsy x T). split; vm_compute; reflexivity.
Qed.

Lemma effective_page_bound (x : JS.number) :
  JS.le (JS.of_Z 1) (effective_page x) = true.
Proof.
  destruct (JS.ToBoolean x) eqn:T.
  - destruct (JS.lt x (JS.of_Z 1)) eqn:L.
    + unfold effective_page, JS.or. rewrite T.
      rewrite (Math_max_below x (JS.of_Z 1) L). vm_compute. reflexivity.
    + assert (Hx : x <> S754_nan) by (intros ->; discriminate T).
      assert (Le : JS.le (JS.of_Z 1) x = true)
        by (apply not_lt_le; auto; vm_compute; discriminate).
      now rewrite effective_page_kept.
  - rewrite (effective_page_falsy x T). vm_compute. reflexivity.
Qed.

(** ** Integer pages and limits *)

Lemma of_Z_exact (z : Z) :
  0 < z < 2 ^ 53 -> exists p, z = Z.pos p /\ digits p <= 53 /\
                              JS.of_Z z = integer p.
Proof.
  intros [H0 H1]. destruct z as [| p | p]; try lia.
  exists p. pose proof (digits_le_53 p H1) as D.
  split; [reflexivity |]. split; [exact D |]. now apply of_Z_integer.
Qed.

(** The window of [list] for an integer limit from 1 to 100 and an
    integer page from 1 on. *)
Lemma integer_window (L P : Z) :
  1 <= L <= 100 -> 1 <= P -> P * L < 2 ^ 53 ->
  effective_limit (JS.of_Z L) = JS.of_Z L /\
  effective_page (JS.of_Z P) = JS.of_Z P /\
  JS.mul (JS.sub (JS.of_Z P) (JS.of_Z 1)) (JS.of_Z L)
  = JS.of_Z ((P - 1) * L).
Proof.
  intros HL HP B.
  assert (BP : P < 2 ^ 53) by nia.
  destruct (of_Z_exact L) as (l & -> & Dl & El); [lia |].
  destruct (of_Z_exact P) as (p & -> & Dp & Ep); [lia |].
  rewrite El, Ep. split; [| split].
  - apply effective_limit_kept; [reflexivity |].
    rewrite (of_Z_integer 100) by (vm_compute; discriminate).
    apply le_integer; [lia | vm_compute; discriminate].
  - apply effective_page_kept.
    rewrite (of_Z_integer 1) by (vm_compute; discriminate).
    apply le_integer; [lia | exact Dp].
  - rewrite (sub_integer_1 p Dp).
    destruct (Z.pos p - 1) as [| q | q] eqn:E; [reflexivity | | lia].
    assert (Bq : Z.pos (q * l) < 2 ^ 53) by (rewrite Pos2Z.inj_mul; nia).
    pose proof (digits_le_53 _ Bq) as Dq.
    rewrite (of_Z_integer q)
      by (transitivity (digits (q * l)); [apply digits_mono; nia | exact Dq]).
    rewrite (mul_integer q l Dq).
    change (Z.pos q * Z.pos l) with (Z.pos (q * l)).
    symmetry. now apply of_Z_integer.
Qed.

Lemma to_index_of_Z (z : Z) :
  0 <= z < 2 ^ 53 -> Repository.to_index (JS.of_Z z) = Some (Z.to_nat z).
Proof.
  intros [H0 H1]. destruct z as [| p | p]; try lia; [reflexivity |].
  pose proof (digits_le_53 p H1) as D.
  rewrite (of_Z_integer p D), (to_index_integer p D). reflexivity.
Qed.


(** ** Well-formed numbers *)

(** A well-formed binary64 has a mantissa of at most 53 bits. *)
Lemma valid_mantissa (s : bool) (m : positive) (e : Z) :
  valid_binary JS.prec JS.emax (S754_finite s m e) = true ->
  Z.pos m < 2 ^ 53.
Proof.
  unfold valid_binary, bounded, canonical_mantissa, fexp.
  change (emin JS.prec JS.emax) with (-1074). unfold JS.prec.
  intros H. apply andb_true_iff in H. destruct H as [H _].
  apply Z.eqb_eq in H. fold (digits m) in H.
  pose proof (digits_bounds m) as [_ U].
  assert (D : digits m <= 53) by lia.
  assert (2 ^ digits m <= 2 ^ 53) by (apply Z.pow_le_mono_r; lia). lia.
Qed.

(** The index a well-formed number not above 100 stands for is at most
    100. *)
Lemma to_index_at_most_100 (x : JS.number) (t : nat) :
  valid_binary JS.prec JS.emax x = true ->
  JS.lt (JS.of_Z 100) x = false ->
  Repository.to_index x = Some t -> (t <= 100)%nat.
Proof.
  intros V L I. rewrite of_Z_100 in L.
  destruct x as [sx | sx | | sx m e]; try discriminate I.
  - injection I as <-. lia.
  - destruct sx; [discriminate I |].
    pose proof (valid_mantissa _ _ _ V) as M.
    unfold Repository.to_index in I.
    unfold JS.lt, SFltb, SFcompare in L.
    assert (B : e <= -46 /\ (e = -46 -> Z.pos m <= 100 * 2 ^ 46)).
    { destruct (Z.compare_spec (-46) e) as [E | Lt | Gt];
        [| discriminate L | lia].
      split; [lia |]. intros _.
      change (Pos.compare_cont Eq ?a ?b) with (Pos.compare a b) in L.
      rewrite Pos2Z.inj_compare in L.
      destruct (Z.compare_spec 7036874417766400 (Z.pos m)) as [F | F | F];
        try discriminate L; change (100 * 2 ^ 46) with 7036874417766400;
        lia. }
    destruct B as [B1 B2].
    destruct (Z.leb_spec 0 e) as [P | N]; [lia |].
    destruct (Z.pos m mod 2 ^ (- e) =? 0); try discriminate I.
    injection I as <-.
    assert (P46 : 2 ^ 46 <= 2 ^ (- e)) by (apply Z.pow_le_mono_r; lia).
    apply Nat2Z.inj_le. rewrite Z2Nat.id by (apply Z.div_pos; lia).
    apply Z.div_le_upper_bound; [lia |].
    destruct (Z.eq_dec e (-46)) as [E | E].
    + specialize (B2 E). nia.
    + assert (P47 : 2 ^ 47 <= 2 ^ (- e)) by (apply Z.pow_le_mono_r; lia).
      change (2 ^ 53) with (64 * 2 ^ 47) in M. nia.
Qed.


(** ** The pagination window of [list] *)

(** What [list] does: it throws before any call when a parameter does
    not convert, the limit first; otherwise it queries one window. *)
Lemma list_cases (req : Request) :
  match query_limit req, query_page req with
  | Normal x, Normal y =>
      lists_with (PokemonControllerPaged.list req)
        (effective_limit x) (effective_page y)
        (JS.mul (JS.sub (effective_page y) (JS.of_Z 1)) (effective_limit x))
  | _, _ => PokemonControllerPaged.list req = Throw
  end.
Proof.
  unfold query_limit, query_page, PokemonControllerPaged.list.
  destruct (Number (limit (query req))) as [x |];
    destruct (Number (page (query req))) as [y |]; try reflexivity.
  eexists. split; [reflexivity | intros its tot; reflexivity].
Qed.

Lemma list_window (req : Request) (x y : JS.number) :
  query_limit req = Normal x -> query_page req = Normal y ->
  lists_with (PokemonControllerPaged.list req)
    (effective_limit x) (effective_page y)
    (JS.mul (JS.sub (effective_page y) (JS.of_Z 1)) (effective_limit x)).
Proof.
  intros Ex Ey. pose proof (list_cases req) as C.
  now rewrite Ex, Ey in C.
Qed.

Lemma list_throws (req : Request) :
  query_limit req = Throws \/ query_page req = Throws ->
  PokemonControllerPaged.list req = Throw.
Proof.
  intros H. pose proof (list_cases req) as C.
  destruct H as [E | E]; rewrite E in C;
    destruct (query_limit req); exact C.
Qed.

(** The window a handler queries is determined by the handler. *)
Lemma lists_with_inj (h : Handler) (l1 p1 o1 l2 p2 o2 : JS.number) :
  lists_with h l1 p1 o1 -> lists_with h l2 p2 o2 ->
  l1 = l2 /\ p1 = p2 /\ o1 = o2.
Proof.
  intros (k1 & E1 & R1) (k2 & E2 & R2).
  rewrite E1 in E2. injection E2 as El Eo Ek. subst l2 o2 k2.
  specialize (R1 [] 0%nat). rewrite (R2 [] 0%nat) in R1.
  injection R1 as Ep. auto.
Qed.

(** The window [list] queries, when it queries one, is the one of
    [list_window], for the numbers both parameters convert to. *)
Lemma list_queries (req : Request) (lim pg off : JS.number) :
  lists_with (PokemonControllerPaged.list req) lim pg off ->
  exists x y,
    query_limit req = Normal x /\ query_page req = Normal y /\
    lim = effective_limit x /\ pg = effective_page y /\
    off = JS.mul (JS.sub pg (JS.of_Z 1)) lim.
Proof.
  intros W. pose proof (list_cases req) as C.
  destruct (query_limit req) as [x |], (query_page req) as [y |];
    try (destruct W as (k & E & _); rewrite C in E; discriminate E).
  destruct (lists_with_inj _ _ _ _ _ _ _ W C) as (-> & -> & ->).
  exists x, y. repeat split; reflexivity.
Qed.

Lemma list_uses_limit (req : Request) (x : JS.number) :
  query_limit req = Normal x ->
  uses_limit (PokemonControllerPaged.list req) (query_page req)
    (effective_limit x).
Proof.
  intros Ex. split; [| split].
  - intros lim pg off W.
    destruct (list_queries req lim pg off W) as (x' & y & Ex' & _ & -> & _).
    congruence.
  - intros y Ey. do 2 eexists. exact (list_window req x y Ex Ey).
  - intros Ey. apply list_throws. now right.
Qed.

Lemma list_uses_page (req : Request) (y : JS.number) :
  query_page req = Normal y ->
  uses_page (PokemonControllerPaged.list req) (query_limit req)
    (effective_page y).
Proof.
  intros Ey. split; [| split].
  - intros lim pg off W.
    destruct (list_queries req lim pg off W)
      as (x & y' & _ & Ey' & _ & -> & _).
    congruence.
  - intros x Ex. do 2 eexists. exact (list_window req x y Ex Ey).
  - intros Ex. apply list_throws. now left.
Qed.

(** C2: a [limit] that parses to a number above 100 makes [list] query
    and echo a limit of exactly 100, and an absent [limit] one of 50:
    every window queried and every page echoed has that limit.  The
    query is made whenever the page converts to a number; a page that
    does not makes [list] throw before any query. *)
Theorem list_limit_capped_at_100_default_50 (req : Request) :
  (forall x, query_limit req = Normal x ->
             JS.lt (JS.of_Z 100) x = true ->
             uses_limit (PokemonControllerPaged.list req) (query_page req)
               (JS.of_Z 100)) /\
  (limit (query req) = QUndefined ->
   uses_limit (PokemonControllerPaged.list req) (query_page req)
     (JS.of_Z 50)).
Proof.
  split.
  - intros x Ex H. rewrite <- (effective_limit_capped x H).
    now apply list_uses_limit.
  - intros H.
    assert (Ex : query_limit req = Normal JS.NaN)
      by (unfold query_limit; rewrite H; reflexivity).
    replace (JS.of_Z 50) with (effective_limit JS.NaN)
      by (vm_compute; reflexivity).
    now apply list_uses_limit.
Qed.

Lemma list_limit_capped_at_100_default_50_witness :
  (exists pg off,
     lists_with (PokemonControllerPaged.list
                   (request (QString "150") (QString "3")))
       (JS.of_Z 100) pg off) /\
  PokemonControllerPaged.list (request (QString "150") shadowed_toString)
  = Throw /\
  (exists pg off,
     lists_with (PokemonControllerPaged.list
                   (request QUndefined (QString "3")))
       (JS.of_Z 50) pg off).
Proof.
  split; [| split].
  - destruct (proj1 (list_limit_capped_at_100_default_50
                       (request (QString "150") (QString "3")))
                (JS.of_Z 150))
      as (_ & Q & _); [vm_compute; reflexivity .. |].
    apply (Q (JS.of_Z 3)). vm_compute. reflexivity.
  - destruct (proj1 (list_limit_capped_at_100_default_50
                       (request (QString "150") shadowed_toString))
                (JS.of_Z 150))
      as (_ & _ & T); [vm_compute; reflexivity .. |].
    apply T. reflexivity.
  - destruct (proj2 (list_limit_capped_at_100_default_50
                       (request QUndefined (QString "3"))))
      as (_ & Q & _); [reflexivity |].
    apply (Q (JS.of_Z 3)). vm_compute. reflexivity.
Defined.

(** C3, as amended: a [page] that parses to a number at most 0 makes the
    effective page 1, and the offset a zero (of either sign, [=== 0])
    for every [limit] that does not parse to minus infinity; an absent
    [page] makes the effective page 1.  Every window queried and every
    page echoed is so; the query is made whenever the limit converts to
    a number, and a limit that does not makes [list] throw before any
    query. *)
Theorem list_page_floored_at_1 (req : Request) :
  (forall y, query_page req = Normal y ->
             JS.le y (JS.of_Z 0) = true ->
             uses_page (PokemonControllerPaged.list req) (query_limit req)
               (JS.of_Z 1) /\
             (forall lim pg off,
                lists_with (PokemonControllerPaged.list req) lim pg off ->
                query_limit req <> Normal (S754_infinity true) ->
                JS.eq off (JS.of_Z 0) = true)) /\
  (page (query req) = QUndefined ->
   uses_page (PokemonControllerPaged.list req) (query_limit req)
     (JS.of_Z 1)).
Proof.
  split.
  - intros y Ey H. rewrite <- (effective_page_floored y H). split.
    + now apply list_uses_page.
    + intros lim pg off W Hl.
      destruct (list_queries req lim pg off W)
        as (x & y' & Ex & Ey' & -> & -> & ->).
      assert (y' = y) by congruence. subst y'.
      rewrite (effective_page_floored y H).
      apply first_page_offset, effective_limit_finite.
      intros E. apply Hl. now rewrite Ex, E.
  - intros H.
    assert (Ey : query_page req = Normal JS.NaN)
      by (unfold query_page; rewrite H; reflexivity).
    replace (JS.of_Z 1) with (effective_page JS.NaN)
      by (vm_compute; reflexivity).
    now apply list_uses_page.
Qed.

Lemma list_page_floored_at_1_witness :
  (exists lim off,
     lists_with (PokemonControllerPaged.list
                   (request (QString "20") (QString "-3")))
       lim (JS.of_Z 1) off /\
     JS.eq off (JS.of_Z 0) = true) /\
  (exists lim off,
     lists_with (PokemonControllerPaged.list
                   (request (QString "20") QUndefined))
       lim (JS.of_Z 1) off).
Proof.
  split.
  - destruct (proj1 (list_page_floored_at_1
                       (request (QString "20") (QString "-3")))
                (SFopp (JS.of_Z 3)))
      as ((_ & Q & _) & Z); [vm_compute; reflexivity .. |].
    destruct (Q (JS.of_Z 20)) as (lim & off & W);
      [vm_compute; reflexivity |].
    exists lim, off. split; [exact W |].
    apply (Z lim (JS.of_Z 1) off W). vm_compute. discriminate.
  - destruct (proj2 (list_page_floored_at_1
                       (request (QString "20") QUndefined)))
      as (_ & Q & _); [reflexivity |].
    apply (Q (JS.of_Z 20)). vm_compute. reflexivity.
Defined.

(** C3 fails as stated: with [limit=-Infinity] and [page=0] the page
    parses to 0 and is floored at 1, the limit stays minus infinity, and
    the offset [(1 - 1) * -Infinity] is NaN, not 0. *)
Lemma list_page_floored_offset_not_zero :
  query_page request_minus_infinity = Normal (JS.of_Z 0) /\
  JS.le (JS.of_Z 0) (JS.of_Z 0) = true /\
  lists_with (PokemonControllerPaged.list request_minus_infinity)
    (S754_infinity true) (JS.of_Z 1) JS.NaN /\
  ~ (exists lim off,
       lists_with (PokemonControllerPaged.list request_minus_infinity)
         lim (JS.of_Z 1) off /\
       JS.eq off (JS.of_Z 0) = true).
Proof.
  assert (W : lists_with (PokemonControllerPaged.list request_minus_infinity)
                (S754_infinity true) (JS.of_Z 1) JS.NaN).
  { pose proof (list_window request_minus_infinity
                  (S754_infinity true) (JS.of_Z 0) eq_refl eq_refl) as W.
    vm_compute in W. exact W. }
  split; [reflexivity |]. split; [reflexivity |]. split; [exact W |].
  intros (lim & off & W' & Z).
  destruct (lists_with_inj _ _ _ _ _ _ _ W W') as (_ & _ & <-).
  discriminate Z.
Qed.

(** C4: the offset [list] passes to the store is [(page - 1) * limit],
    the binary64 difference and product, for the defaulted and clamped
    page and limit that the response echoes; on an integer page and
    limit it is the integer [(page - 1) * limit] itself, and stands for
    that index.  This holds of every window [list] queries; it queries
    one whenever both parameters convert to numbers, and throws before
    any query otherwise. *)
Theorem list_offset_from_page_and_limit (req : Request) :
  (forall lim pg off,
     lists_with (PokemonControllerPaged.list req) lim pg off ->
     off = SFmul 53 1024 (SFsub 53 1024 pg (JS.of_Z 1)) lim /\
     (exists x y,
        query_limit req = Normal x /\ query_page req = Normal y /\
        lim = JS.Math_min (JS.or x (JS.of_Z 50)) (JS.of_Z 100) /\
        pg = JS.Math_max (JS.or y (JS.of_Z 1)) (JS.of_Z 1)) /\
     (forall L P : Z,
        1 <= L <= 100 -> 1 <= P -> P * L < 2 ^ 53 ->
        lim = JS.of_Z L -> pg = JS.of_Z P ->
        off = JS.of_Z ((P - 1) * L) /\
        Repository.to_index off = Some (Z.to_nat ((P - 1) * L)))) /\
  (forall x y,
     query_limit req = Normal x -> query_page req = Normal y ->
     exists lim pg off,
       lists_with (PokemonControllerPaged.list req) lim pg off) /\
  (query_limit req = Throws \/ query_page req = Throws ->
   PokemonControllerPaged.list req = Throw).
Proof.
  split; [| split].
  - intros lim pg off W.
    destruct (list_queries req lim pg off W)
      as (x & y & Ex & Ey & El & Ep & Eo).
    split; [exact Eo |]. split; [exists x, y; auto |].
    intros L P HL HP B HL' HP'.
    destruct (integer_window L P HL HP B) as (_ & _ & Wo).
    rewrite Eo, HL', HP', Wo. split; [reflexivity |].
    apply to_index_of_Z. nia.
  - intros x y Ex Ey. do 3 eexists. exact (list_window req x y Ex Ey).
  - apply list_throws.
Qed.

Lemma list_offset_from_page_and_limit_witness :
  lists_with
    (PokemonControllerPaged.list (request (QString "20") (QString "3")))
    (JS.of_Z 20) (JS.of_Z 3) (JS.of_Z 40) /\
  Repository.to_index (JS.of_Z 40) = Some 40%nat /\
  PokemonControllerPaged.list (request shadowed_toString (QString "3"))
  = Throw.
Proof.
  pose proof (list_window (request (QString "20") (QString "3"))
                (JS.of_Z 20) (JS.of_Z 3) eq_refl eq_refl) as W.
  destruct (list_offset_from_page_and_limit
              (request (QString "20") (QString "3"))) as (U & _ & _).
  destruct (U _ _ _ W) as (_ & _ & I).
  destruct (I 20 3) as (Ho & Hi);
    [lia | lia | lia | vm_compute; reflexivity .. |].
  rewrite Ho in W, Hi. split; [vm_compute in W; exact W |].
  split; [exact Hi |].
  apply (proj2 (proj2 (list_offset_from_page_and_limit
                         (request shadowed_toString (QString "3"))))).
  left. reflexivity.
Defined.

(** ** [list] on every request *)

(** X1: the limit [list] queries and echoes is at most 100, and is
    neither 0 nor NaN, for every window it queries; it queries one
    whenever both parameters convert to numbers. *)
Theorem list_limit_never_above_100 (req : Request) :
  (forall lim pg off,
     lists_with (PokemonControllerPaged.list req) lim pg off ->
     JS.le lim (JS.of_Z 100) = true /\ JS.ToBoolean lim = true) /\
  (forall x y,
     query_limit req = Normal x -> query_page req = Normal y ->
     exists lim pg off,
       lists_with (PokemonControllerPaged.list req) lim pg off).
Proof.
  split.
  - intros lim pg off W.
    destruct (list_queries req lim pg off W) as (x & _ & _ & _ & -> & _).
    apply effective_limit_bounds.
  - intros x y Ex Ey. do 3 eexists. exact (list_window req x y Ex Ey).
Qed.

Lemma list_limit_never_above_100_witness :
  exists lim pg off,
    lists_with (PokemonControllerPaged.list
                  (request (QString "5000") (QString "2"))) lim pg off /\
    JS.le lim (JS.of_Z 100) = true /\ JS.ToBoolean lim = true.
Proof.
  destruct (list_limit_never_above_100
              (request (QString "5000") (QString "2"))) as (U & Q).
  destruct (Q (JS.of_Z 5000) (JS.of_Z 2)) as (lim & pg & off & W);
    [vm_compute; reflexivity .. |].
  exists lim, pg, off. split; [exact W | exact (U lim pg off W)].
Defined.

(** X2: the page [list] uses and echoes is at least 1, so never NaN,
    for every window it queries; it queries one whenever both
    parameters convert to numbers. *)
Theorem list_page_never_below_1 (req : Request) :
  (forall lim pg off,
     lists_with (PokemonControllerPaged.list req) lim pg off ->
     JS.le (JS.of_Z 1) pg = true) /\
  (forall x y,
     query_limit req = Normal x -> query_page req = Normal y ->
     exists lim pg off,
       lists_with (PokemonControllerPaged.list req) lim pg off).
Proof.
  split.
  - intros lim pg off W.
    destruct (list_queries req lim pg off W)
      as (_ & y & _ & _ & _ & -> & _).
    apply effective_page_bound.
  - intros x y Ex Ey. do 3 eexists. exact (list_window req x y Ex Ey).
Qed.

Lemma list_page_never_below_1_witness :
  exists lim pg off,
    lists_with (PokemonControllerPaged.list
                  (request (QString "5") (QString "-7"))) lim pg off /\
    JS.le (JS.of_Z 1) pg = true.
Proof.
  destruct (list_page_never_below_1
              (request (QString "5") (QString "-7"))) as (U & Q).
  destruct (Q (JS.of_Z 5) (SFopp (JS.of_Z 7))) as (lim & pg & off & W);
    [vm_compute; reflexivity .. |].
  exists lim, pg, off. split; [exact W | exact (U lim pg off W)].
Defined.

(** X3: a [limit] that converts to a zero or to NaN (so [limit=0], an
    empty or a non-numeric [limit]) is replaced by 50, and such a
    [page] by 1. *)
Theorem list_falsy_parameters_default (req : Request) :
  (forall x, query_limit req = Normal x -> JS.ToBoolean x = false ->
             uses_limit (PokemonControllerPaged.list req) (query_page req)
               (JS.of_Z 50)) /\
  (forall y, query_page req = Normal y -> JS.ToBoolean y = false ->
             uses_page (PokemonControllerPaged.list req) (query_limit req)
               (JS.of_Z 1)).
Proof.
  split.
  - intros x Ex T. rewrite <- (effective_limit_falsy x T).
    now apply list_uses_limit.
  - intros y Ey T. rewrite <- (effective_page_falsy y T).
    now apply list_uses_page.
Qed.

Lemma list_falsy_parameters_default_witness :
  (exists pg off,
     lists_with (PokemonControllerPaged.list
                   (request (QString "0") (QString "abc")))
       (JS.of_Z 50) pg off) /\
  (exists lim off,
     lists_with (PokemonControllerPaged.list
                   (request (QString "0") (QString "abc")))
       lim (JS.of_Z 1) off).
Proof.
  split.
  - destruct (proj1 (list_falsy_parameters_default
                       (request (QString "0") (QString "abc")))
                (JS.of_Z 0)) as (_ & Q & _); [reflexivity .. |].
    apply (Q JS.NaN). reflexivity.
  - destruct (proj2 (list_falsy_parameters_default
                       (request (QString "0") (QString "abc")))
                JS.NaN) as (_ & Q & _); [reflexivity .. |].
    apply (Q (JS.of_Z 0)). reflexivity.
Defined.

(** X4: a [limit] that converts to a nonzero number at most 100 is used
    as it is, negative and fractional ones included; a [page] that
    converts to a number at least 1 is used as it is, however large. *)
Theorem list_parameters_in_range_kept (req : Request) :
  (forall x, query_limit req = Normal x -> JS.ToBoolean x = true ->
             JS.le x (JS.of_Z 100) = true ->
             uses_limit (PokemonControllerPaged.list req) (query_page req)
               x) /\
  (forall y, query_page req = Normal y ->
             JS.le (JS.of_Z 1) y = true ->
             uses_page (PokemonControllerPaged.list req) (query_limit req)
               y).
Proof.
  split.
  - intros x Ex T L. pose proof (list_uses_limit req x Ex) as U.
    now rewrite (effective_limit_kept x T L) in U.
  - intros y Ey L. pose proof (list_uses_page req y Ey) as U.
    now rewrite (effective_page_kept y L) in U.
Qed.

Lemma list_parameters_in_range_kept_witness :
  (exists pg off,
     lists_with (PokemonControllerPaged.list
                   (request (QString "-5") (QString "1e300")))
       (SFopp (JS.of_Z 5)) pg off) /\
  (exists lim off,
     lists_with (PokemonControllerPaged.list
                   (request (QString "-5") (QString "1e300")))
       lim (JS.StringToNumber "1e300") off).
Proof.
  split.
  - destruct (proj1 (list_parameters_in_range_kept
                       (request (QString "-5") (QString "1e300")))
                (SFopp (JS.of_Z 5))) as (_ & Q & _);
      [vm_compute; reflexivity .. |].
    apply (Q (JS.StringToNumber "1e300")). reflexivity.
  - destruct (proj2 (list_parameters_in_range_kept
                       (request (QString "-5") (QString "1e300")))
                (JS.StringToNumber "1e300")) as (_ & Q & _);
      [vm_compute; reflexivity .. |].
    apply (Q (SFopp (JS.of_Z 5))). vm_compute. reflexivity.
Defined.

(** ** [list] on integer parameters *)

(** X6: for an integer limit [L] from 1 to 100 and an integer page [P]
    from 1 on, with [P * L] below 2^53, [list] queries exactly the
    window of [L] records at offset [(P - 1) * L]: the arithmetic in
    binary64 loses nothing. *)
Theorem list_integer_window (req : Request) (L P : Z) :
  1 <= L <= 100 -> 1 <= P -> P * L < 2 ^ 53 ->
  query_limit req = Normal (JS.of_Z L) ->
  query_page req = Normal (JS.of_Z P) ->
  lists_with (PokemonControllerPaged.list req)
    (JS.of_Z L) (JS.of_Z P) (JS.of_Z ((P - 1) * L)) /\
  Repository.to_index (JS.of_Z L) = Some (Z.to_nat L) /\
  Repository.to_index (JS.of_Z ((P - 1) * L)) = Some (Z.to_nat ((P - 1) * L)).
Proof.
  intros HL HP B El Ep.
  destruct (integer_window L P HL HP B) as (Wl & Wp & Wo).
  pose proof (list_window req _ _ El Ep) as W.
  rewrite Wl, Wp, Wo in W.
  split; [exact W |]. split; apply to_index_of_Z; nia.
Qed.

Lemma list_integer_window_witness :
  lists_with
    (PokemonControllerPaged.list (request (QString "20") (QString "3")))
    (JS.of_Z 20) (JS.of_Z 3) (JS.of_Z 40).
Proof.
  apply (list_integer_window (request (QString "20") (QString "3")) 20 3);
    try lia; vm_compute; reflexivity.
Defined.
(** ** Handlers against the store *)

Section AgainstTheStore.

Variable engine : Repository.Engine.

Lemma run_reads_only (h : Handler) (s : Repository.Store) :
  reads_only h -> snd (run engine h s) = s.
Proof.
  induction h as [r | | p k IH | n k IH | t o k IH | k IH | k IH];
    simpl; intros R.
  - reflexivity.
  - reflexivity.
  - contradiction.
  - apply IH, R.
  - destruct (Repository.to_index t), (Repository.to_index o);
      try (apply IH, R);
      (destruct (Repository.beyond engine t o s);
       [apply IH, R | reflexivity]).
  - apply IH, R.
  - contradiction.
Qed.

Lemma findOne_found (n : string) (s : Repository.Store) :
  (exists p, In p s /\ name p = n) ->
  exists p, Repository.findOne n s = Some p /\ In p s /\ name p = n.
Proof.
  intros (q & Hin & Hn). unfold Repository.findOne.
  destruct (find (fun p => String.eqb (name p) n) s) as [p |] eqn:F.
  - apply find_some in F. destruct F as [Hp E].
    apply String.eqb_eq in E. eauto.
  - apply find_none with (x := q) in F; [| exact Hin].
    simpl in F. rewrite Hn, String.eqb_refl in F. discriminate.
Qed.

Lemma findOne_missing (n : string) (s : Repository.Store) :
  (forall p, In p s -> name p <> n) -> Repository.findOne n s = None.
Proof.
  intros H. unfold Repository.findOne.
  destruct (find (fun p => String.eqb (name p) n) s) as [p |] eqn:F;
    [| reflexivity].
  apply find_some in F. destruct F as [Hp E].
  apply String.eqb_eq in E. now destruct (H p Hp).
Qed.

Lemma findOne_insert (p : Pokemon) (s : Repository.Store) :
  exists q,
    Repository.findOne (name p) (Repository.insert p s) = Some q /\
    name q = name p.
Proof.
  destruct (findOne_found (name p) (Repository.insert p s))
    as (q & F & _ & E).
  - exists p. split; [| reflexivity].
    unfold Repository.insert. apply in_or_app. right. now left.
  - eauto.
Qed.

(** Against the store, [create] answers by the store's verdict alone: a
    name already present or an empty name changes nothing. *)
Lemma create_run (s : Repository.Store) (req : Request) :
  let p := {| name := body_name (body req); type := body_type (body req) |} in
  run engine (PokemonControllerPaged.create req) s =
  if Repository.persists engine s p
  then (Sent {| status := 201; json := DataPokemon (Some p) |},
        Repository.insert p s)
  else (Sent {| status := 500;
                json := DataMessage "Erro ao criar Pokémon." |}, s).
Proof. simpl. destruct (Repository.persists engine s _); reflexivity. Qed.

(** [list] run on a window of two indices. *)
Lemma list_run (s : Repository.Store) (req : Request) (x y : JS.number)
  (t o : nat) :
  query_limit req = Normal x -> query_page req = Normal y ->
  Repository.to_index (effective_limit x) = Some t ->
  Repository.to_index
    (JS.mul (JS.sub (effective_page y) (JS.of_Z 1)) (effective_limit x))
  = Some o ->
  run engine (PokemonControllerPaged.list req) s =
  (ok (DataPage {| items := firstn t (skipn o s); total := List.length s;
                   page_limit := effective_limit x;
                   page_page := effective_page y |}), s).
Proof.
  intros Ex Ey Ht Ho.
  destruct (list_window req x y Ex Ey) as (k & E & R).
  rewrite E. cbn [run]. rewrite Ht, Ho.
  unfold Repository.findAndCount. rewrite R. reflexivity.
Qed.

End AgainstTheStore.

(** The second page of twenty on a store of twelve is empty; a
    fractional limit is left to the engine; a parameter that does not
    convert leaves nothing sent. *)
Example list_beyond_the_end :
  run always
    (PokemonControllerPaged.list (request (QString "20") (QString "2")))
    twelve =
  (ok (DataPage {| items := []; total := 12; page_limit := JS.of_Z 20;
                   page_page := JS.of_Z 2 |}), twelve).
Proof. vm_compute. reflexivity. Qed.

Example list_fractional_limit :
  run always
    (PokemonControllerPaged.list (request (QString "2.5") QUndefined))
    twelve = (Uncaught, twelve) /\
  fst (run lenient
         (PokemonControllerPaged.list (request (QString "2.5") QUndefined))
         twelve)
  = ok (DataPage {| items := twelve; total := 12;
                    page_limit := JS.StringToNumber "2.5";
                    page_page := JS.of_Z 1 |}).
Proof. vm_compute. split; reflexivity. Qed.

Example list_shadowed_toString :
  run lenient
    (PokemonControllerPaged.list (request shadowed_toString (QString "1")))
    twelve = (Uncaught, twelve).
Proof. vm_compute. reflexivity. Qed.

(** C1: with 12 records in the store, [limit=5] and [page=2] give status
    200 and a body whose items are the 5 records from offset 5 on (the
    records at indices 5 to 9 of the store), with total 12, limit 5 and
    page 2. *)
Theorem list_limit_5_page_2_of_12
  (engine : Repository.Engine)
  (s : Repository.Store) (req : Request) :
  List.length s = 12%nat ->
  limit (query req) = QString "5" ->
  page (query req) = QString "2" ->
  let slice := firstn 5 (skipn 5 s) in
  run engine (PokemonControllerPaged.list req) s =
    (ok (DataPage {| items := slice; total := 12;
                     page_limit := JS.of_Z 5; page_page := JS.of_Z 2 |}), s)
  /\ List.length slice = 5%nat
  /\ forall i, (i < 5)%nat -> nth_error slice i = nth_error s (5 + i).
Proof.
  intros Hs Hl Hp slice. split; [| split].
  - assert (El : query_limit req = Normal (JS.of_Z 5))
      by (unfold query_limit; rewrite Hl; vm_compute; reflexivity).
    assert (Ep : query_page req = Normal (JS.of_Z 2))
      by (unfold query_page; rewrite Hp; vm_compute; reflexivity).
    rewrite (list_run engine s req _ _ 5 5 El Ep)
      by (vm_compute; reflexivity).
    rewrite Hs.
    replace (effective_limit (JS.of_Z 5)) with (JS.of_Z 5)
      by (vm_compute; reflexivity).
    replace (effective_page (JS.of_Z 2)) with (JS.of_Z 2)
      by (vm_compute; reflexivity).
    reflexivity.
  - unfold slice. rewrite length_firstn, length_skipn, Hs. reflexivity.
  - intros i Hi. unfold slice.
    rewrite nth_error_firstn, nth_error_skipn.
    apply Nat.ltb_lt in Hi. now rewrite Hi.
Qed.

Lemma list_limit_5_page_2_of_12_witness :
  run always
    (PokemonControllerPaged.list (request (QString "5") (QString "2")))
    twelve =
  (ok (DataPage
         {| items := [ pokemon "Charizard" "Fire"; pokemon "Squirtle" "Water";
                       pokemon "Wartortle" "Water";
                       pokemon "Blastoise" "Water"; pokemon "Caterpie" "Bug" ];
            total := 12; page_limit := JS.of_Z 5; page_page := JS.of_Z 2 |}),
   twelve).
Proof.
  exact (proj1 (list_limit_5_page_2_of_12 always twelve
                  (request (QString "5") (QString "2"))
                  eq_refl eq_refl eq_refl)).
Defined.

(** C5: in both revisions, [getOne] answers 200 with the record when the
    store has a record of that exact name, and 404 with a null payload
    when it has none, in particular on the empty store. *)
Theorem getOne_200_if_found_404_otherwise :
  getOne_contract PokemonControllerPaged.getOne /\
  getOne_contract PokemonController.getOne.
Proof.
  assert (G : getOne_contract PokemonControllerPaged.getOne).
  { intros engine s req n. split; [| split; [| split]].
    - eexists. split; [reflexivity |]. split; [intros p |]; reflexivity.
    - intros H. destruct (findOne_found n s H) as (p & F & Hin & Hn).
      exists p. split; [exact Hin |]. split; [exact Hn |].
      simpl. fold n. rewrite F. reflexivity.
    - intros H. simpl. fold n. rewrite (findOne_missing n s H). reflexivity.
    - reflexivity. }
  split; exact G.
Qed.

Lemma getOne_200_if_found_404_otherwise_witness :
  (exists p, In p twelve /\ name p = "Squirtle" /\
     run always (PokemonController.getOne (named "Squirtle")) twelve =
     (Sent {| status := 200; json := DataPokemon (Some p) |}, twelve)) /\
  run never (PokemonControllerPaged.getOne (named "Nonexistent")) twelve =
  (Sent {| status := 404; json := DataPokemon None |}, twelve).
Proof.
  split.
  - apply (proj1 (proj2 (proj2 getOne_200_if_found_404_otherwise always
                           twelve (named "Squirtle")))).
    exists (pokemon "Squirtle" "Water"). split; [| reflexivity].
    simpl. tauto.
  - apply (proj1 (proj2 (proj2 (proj1 getOne_200_if_found_404_otherwise
                                  never twelve (named "Nonexistent"))))).
    intros p Hin. simpl in Hin.
    repeat (destruct Hin as [<- | Hin]; [discriminate |]).
    contradiction.
Defined.

(** C6: [create] inserts the body's name and type as they come, whatever
    they are; a successful insert gives 201 with the created entity (the
    paginated revision) or with a success message (the other revision),
    a failed one gives 500 with a fixed message and nothing else. *)
Theorem create_201_or_500_without_validation :
  create_contract PokemonControllerPaged.create
    (fun p => DataPokemon (Some p)) /\
  create_contract PokemonController.create
    (fun _ => DataMessage "Pokémon criado com sucesso!").
Proof.
  split; intros req p; eexists; split; try reflexivity; split; reflexivity.
Qed.

(** C7: whatever the store holds, [delete] answers 200 with the success
    message and leaves no record, and a [count] after it answers 0, in
    either revision. *)
Theorem delete_then_count_is_0
  (engine : Repository.Engine)
  (s : Repository.Store) (req req' : Request) :
  (let '(out, s') := run engine (PokemonControllerPaged.delete req) s in
   out = ok deleted /\ s' = [] /\ Repository.count s' = 0%nat /\
   run engine (PokemonControllerPaged.count req') s' =
   (ok (Total 0), s')) /\
  (let '(out, s') := run engine (PokemonController.delete req) s in
   out = ok deleted /\ s' = [] /\ Repository.count s' = 0%nat /\
   run engine (PokemonController.count req') s' = (ok (Count 0), s')).
Proof. simpl. repeat split. Qed.

(** C8: in both revisions, two [delete]s in a row both answer 200, and
    the second leaves the store as the first left it, with no record. *)
Theorem delete_idempotent :
  delete_twice PokemonControllerPaged.delete /\
  delete_twice PokemonController.delete.
Proof. split; intros engine s req1 req2; simpl; repeat split. Qed.

(** C9: if [create] of Pikachu, Electric answers 201, a [getOne] of
    Pikachu after it answers 200 with a record named Pikachu. *)
Theorem create_then_getOne (engine : Repository.Engine)
  (s s' : Repository.Store) (req req' : Request) (r : Response) :
  body req = {| body_name := "Pikachu"; body_type := "Electric" |} ->
  params_name (params req') = "Pikachu" ->
  run engine (PokemonControllerPaged.create req) s = (Sent r, s') ->
  status r = 201 ->
  exists p,
    name p = "Pikachu" /\
    run engine (PokemonControllerPaged.getOne req') s' =
    (Sent {| status := 200; json := DataPokemon (Some p) |}, s').
Proof.
  intros Hb Hn Hrun Hst. rewrite create_run, Hb in Hrun. simpl in Hrun.
  destruct (Repository.persists engine s _).
  - injection Hrun as _ <-.
    destruct (findOne_insert (pokemon "Pikachu" "Electric") s)
      as (q & F & E).
    exists q. split; [exact E |].
    simpl run. rewrite Hn. simpl in F. unfold pokemon in F.
    rewrite F. reflexivity.
  - injection Hrun as <- _. discriminate Hst.
Qed.

Lemma create_then_getOne_witness :
  exists p,
    name p = "Pikachu" /\
    run always (PokemonControllerPaged.getOne (named "Pikachu"))
      (Repository.insert (pokemon "Pikachu" "Electric") twelve) =
    (Sent {| status := 200; json := DataPokemon (Some p) |},
     Repository.insert (pokemon "Pikachu" "Electric") twelve).
Proof.
  apply (create_then_getOne always twelve
           (Repository.insert (pokemon "Pikachu" "Electric") twelve)
           pikachu (named "Pikachu")
           {| status := 201;
              json := DataPokemon (Some (pokemon "Pikachu" "Electric")) |});
    reflexivity.
Defined.

(** C10: [list], [getOne] and [count] leave the store as they found it,
    whatever the request and whatever the store, in either revision. *)
Theorem reads_leave_the_store (engine : Repository.Engine)
  (s : Repository.Store) (req : Request) :
  snd (run engine (PokemonControllerPaged.list req) s) = s /\
  snd (run engine (PokemonControllerPaged.getOne req) s) = s /\
  snd (run engine (PokemonControllerPaged.count req) s) = s /\
  snd (run engine (PokemonController.getOne req) s) = s /\
  snd (run engine (PokemonController.count req) s) = s.
Proof.
  repeat split; apply run_reads_only;
    unfold PokemonControllerPaged.list;
    repeat match goal with
      | |- context [match Number ?v with _ => _ end] => destruct (Number v)
      end;
    simpl; try intros []; simpl; auto.
Qed.

(** [create] and [delete] are the handlers that write. *)
Lemma writes_change_the_store (req : Request) :
  snd (run always (PokemonControllerPaged.create req) twelve) <> twelve /\
  snd (run always (PokemonControllerPaged.delete req) twelve) <> twelve.
Proof. split; simpl; discriminate. Qed.

(** ** Statuses *)

(** X5: whatever the repository resolves to, [list], [count] and
    [delete] answer 200 and nothing else, [getOne] answers 200 or 404,
    and [create] answers 201 or 500: no handler but [create] ever sends
    a 500, in either revision. *)
Theorem only_create_answers_500 (req : Request) :
  statuses (PokemonControllerPaged.list req) [200] /\
  statuses (PokemonControllerPaged.count req) [200] /\
  statuses (PokemonControllerPaged.delete req) [200] /\
  statuses (PokemonControllerPaged.getOne req) [200; 404] /\
  statuses (PokemonControllerPaged.create req) [201; 500] /\
  statuses (PokemonController.count req) [200] /\
  statuses (PokemonController.delete req) [200] /\
  statuses (PokemonController.getOne req) [200; 404] /\
  statuses (PokemonController.create req) [201; 500].
Proof.
  repeat split; intros r H;
    try (unfold PokemonControllerPaged.list in H;
         destruct (Number (limit (query req)));
         [destruct (Number (page (query req))) |]);
    inversion H as [| | | | |]; subst;
    match goal with
    | S : sends _ r |- _ => revert S
    end;
    try match goal with
      | a : bool |- _ => destruct a
      | a : option Pokemon |- _ => destruct a
      | a : (list Pokemon * nat)%type |- _ => destruct a
      end;
    intros S; inversion S; subst; simpl; auto.
Qed.

Lemma only_create_answers_500_witness :
  In (status {| status := 404; json := DataPokemon None |}) [200; 404].
Proof.
  apply (proj1 (proj2 (proj2 (proj2 (only_create_answers_500
                                        (named "Mew")))))).
  apply (sends_findOne _ _ None). apply sends_now.
Defined.


(** ** Pages of integers *)

(** [list] run on integer parameters. *)
Lemma list_integer_run (engine : Repository.Engine)
  (s : Repository.Store) (req : Request) (L P : Z) :
  1 <= L <= 100 -> 1 <= P -> P * L < 2 ^ 53 ->
  query_limit req = Normal (JS.of_Z L) -> query_page req = Normal (JS.of_Z P) ->
  run engine (PokemonControllerPaged.list req) s =
  (ok (DataPage
         {| items := firstn (Z.to_nat L) (skipn (Z.to_nat ((P - 1) * L)) s);
            total := List.length s;
            page_limit := JS.of_Z L; page_page := JS.of_Z P |}), s).
Proof.
  intros HL HP B El Ep.
  destruct (integer_window L P HL HP B) as (Wl & Wp & Wo).
  rewrite (list_run engine s req _ _ (Z.to_nat L) (Z.to_nat ((P - 1) * L))
             El Ep).
  - rewrite Wl, Wp. reflexivity.
  - rewrite Wl. apply to_index_of_Z. lia.
  - rewrite Wl, Wp, Wo. apply to_index_of_Z. nia.
Qed.

(** X7: against the store, such a request is answered 200 with the [L]
    records from index [(P - 1) * L] on, as many as there are, and the
    count of the whole store. *)
Theorem list_integer_page (engine : Repository.Engine)
  (s : Repository.Store) (req : Request) (L P : Z) :
  1 <= L <= 100 -> 1 <= P -> P * L < 2 ^ 53 ->
  query_limit req = Normal (JS.of_Z L) -> query_page req = Normal (JS.of_Z P) ->
  run engine (PokemonControllerPaged.list req) s =
  (ok (DataPage
         {| items := firstn (Z.to_nat L) (skipn (Z.to_nat ((P - 1) * L)) s);
            total := List.length s;
            page_limit := JS.of_Z L; page_page := JS.of_Z P |}), s)
  /\ (List.length
        (firstn (Z.to_nat L) (skipn (Z.to_nat ((P - 1) * L)) s))
      = Nat.min (Z.to_nat L)
          (List.length s - Z.to_nat ((P - 1) * L)))%nat.
Proof.
  intros HL HP B El Ep. split.
  - now apply list_integer_run.
  - now rewrite length_firstn, length_skipn.
Qed.

Lemma list_integer_page_witness :
  run always
    (PokemonControllerPaged.list (request (QString "5") (QString "3")))
    twelve =
  (ok (DataPage
         {| items := [pokemon "Metapod" "Bug"; pokemon "Butterfree" "Bug"];
            total := 12; page_limit := JS.of_Z 5; page_page := JS.of_Z 3 |}),
   twelve).
Proof.
  apply (proj1 (list_integer_page always twelve
                  (request (QString "5") (QString "3")) 5 3
                  ltac:(lia) ltac:(lia) ltac:(lia) eq_refl eq_refl)).
Defined.

Lemma firstn_then_firstn {A} (a b : nat) (l : list A) :
  (firstn a l ++ firstn b (skipn a l))%list = firstn (a + b) l.
Proof.
  revert l. induction a as [| a IH]; intros l; [reflexivity |].
  destruct l as [| x l]; simpl.
  - now rewrite firstn_nil.
  - now rewrite IH.
Qed.

(** X8: read in order, pages 1 to [n] of a fixed integer limit [L] give
    the first [n * L] records of the store, each once and in store
    order. *)
Theorem list_pages_in_order (engine : Repository.Engine)
  (s : Repository.Store) (L : Z) (n : nat) (reqs : nat -> Request) :
  1 <= L <= 100 -> Z.of_nat n * L < 2 ^ 53 ->
  (forall i, (i < n)%nat ->
             query_limit (reqs i) = Normal (JS.of_Z L) /\
             query_page (reqs i) = Normal (JS.of_Z (Z.of_nat i + 1))) ->
  List.concat (map (fun i =>
                 items_of (fst (run engine
                                  (PokemonControllerPaged.list (reqs i)) s)))
            (seq 0 n))
  = firstn (n * Z.to_nat L) s.
Proof.
  intros HL. induction n as [| n IH]; intros B H; [reflexivity |].
  rewrite seq_S, map_app, concat_app, IH; [| nia | intros i Hi; apply H; lia].
  destruct (H n) as [El Ep]; [lia |].
  cbn [map List.concat Nat.add]. rewrite app_nil_r.
  rewrite (list_integer_run engine s (reqs n) L (Z.of_nat n + 1));
    try lia; try assumption.
  simpl items_of.
  replace (Z.to_nat ((Z.of_nat n + 1 - 1) * L)) with (n * Z.to_nat L)%nat
    by nia.
  rewrite firstn_then_firstn. f_equal. lia.
Qed.

Lemma list_pages_in_order_witness :
  List.concat (map (fun i =>
                 items_of (fst (run always
                                  (PokemonControllerPaged.list
                                     (request (QString "5")
                                        (match i with
                                         | O => QString "1"
                                         | _ => QString "2"
                                         end))) twelve)))
            (seq 0 2))
  = firstn 10 twelve.
Proof.
  apply (list_pages_in_order always twelve 5 2
           (fun i => request (QString "5")
                       (match i with
                        | O => QString "1"
                        | _ => QString "2"
                        end))); try lia.
  intros [| [| i]] Hi; try lia; split; vm_compute; reflexivity.
Defined.

(** X9: a page that starts at or past the end of the store is answered
    200 with no items and the count of the whole store. *)
Theorem list_page_past_the_end
  (engine : Repository.Engine)
  (s : Repository.Store) (req : Request) (L P : Z) :
  1 <= L <= 100 -> 1 <= P -> P * L < 2 ^ 53 ->
  query_limit req = Normal (JS.of_Z L) -> query_page req = Normal (JS.of_Z P) ->
  Z.of_nat (List.length s) <= (P - 1) * L ->
  run engine (PokemonControllerPaged.list req) s =
  (ok (DataPage {| items := []; total := List.length s;
                   page_limit := JS.of_Z L; page_page := JS.of_Z P |}), s).
Proof.
  intros HL HP B El Ep Hs.
  rewrite (list_integer_run engine s req L P HL HP B El Ep).
  rewrite skipn_all2 by lia. now rewrite firstn_nil.
Qed.

Lemma list_page_past_the_end_witness :
  run always
    (PokemonControllerPaged.list (request (QString "6") (QString "3")))
    twelve =
  (ok (DataPage {| items := []; total := 12;
                   page_limit := JS.of_Z 6; page_page := JS.of_Z 3 |}),
   twelve).
Proof.
  apply (list_page_past_the_end always twelve
           (request (QString "6") (QString "3")) 6 3);
    try (simpl; lia); vm_compute; reflexivity.
Defined.

(** ** Handlers one after the other *)

Lemma findOne_insert_fresh (p : Pokemon) (s : Repository.Store) :
  (forall q, In q s -> name q <> name p) ->
  Repository.findOne (name p) (Repository.insert p s) = Some p.
Proof.
  unfold Repository.findOne, Repository.insert.
  induction s as [| x s IH]; intros F; simpl.
  - now rewrite String.eqb_refl.
  - destruct (String.eqb_spec (name x) (name p)) as [E | N].
    + destruct (F x (or_introl eq_refl) E).
    + apply IH. intros q Hq. apply F. now right.
Qed.

(** X10: in either revision, when [create] answers 201, a [getOne] of
    the created name answers 200 with a record of that name, whatever
    the name and the type; the record is the created one when the store
    had none of that name. *)
Theorem create_then_getOne_any_name :
  create_getOne_round_trip
    PokemonControllerPaged.create PokemonControllerPaged.getOne /\
  create_getOne_round_trip
    PokemonController.create PokemonController.getOne.
Proof.
  split; intros engine s s' req req' r Hn Hrun Hst; simpl in Hrun;
    set (p := {| name := body_name (body req);
                 type := body_type (body req) |}) in *;
    (destruct (Repository.persists engine s p);
     [ injection Hrun as _ <- | injection Hrun as <- _; discriminate Hst ]);
    destruct (findOne_insert p s) as (q & F & E);
    exists q; simpl run; rewrite Hn;
    change (body_name (body req)) with (name p);
    (split; [exact E |]); rewrite F; (split; [reflexivity |]);
    intros Fresh; rewrite (findOne_insert_fresh p s Fresh) in F;
    congruence.
Qed.

Lemma create_then_getOne_any_name_witness :
  exists p,
    name p = "Mew" /\
    run always (PokemonController.getOne (named "Mew"))
      (Repository.insert (pokemon "Mew" "Psychic") twelve) =
    (Sent {| status := 200; json := DataPokemon (Some p) |},
     Repository.insert (pokemon "Mew" "Psychic") twelve) /\
    p = pokemon "Mew" "Psychic".
Proof.
  destruct (proj2 create_then_getOne_any_name always twelve
              (Repository.insert (pokemon "Mew" "Psychic") twelve)
              {| body := {| body_name := "Mew"; body_type := "Psychic" |};
                 query := {| limit := QUndefined; page := QUndefined |};
                 params := {| params_name := EmptyString |} |}
              (named "Mew")
              {| status := 201;
                 json := DataMessage "Pokémon criado com sucesso!" |}
              eq_refl eq_refl eq_refl) as (p & Hn & Hr & Hf).
  exists p. split; [exact Hn |]. split; [exact Hr |].
  apply Hf. intros q Hq. simpl in Hq.
  repeat (destruct Hq as [<- | Hq]; [discriminate |]).
  contradiction.
Defined.


(** ** The cap on the items *)

(** X11: when the window [list] asks for is one of natural numbers, it
    answers 200 with at most 100 items, whatever limit was asked for
    and whatever the store holds and the engine does elsewhere, as long
    as the limit is a well-formed binary64. *)
Theorem list_at_most_100_items (engine : Repository.Engine)
  (s : Repository.Store) (req : Request) (x y : JS.number) (t o : nat) :
  query_limit req = Normal x -> query_page req = Normal y ->
  valid_binary JS.prec JS.emax x = true ->
  Repository.to_index (effective_limit x) = Some t ->
  Repository.to_index
    (JS.mul (JS.sub (effective_page y) (JS.of_Z 1)) (effective_limit x))
  = Some o ->
  run engine (PokemonControllerPaged.list req) s =
  (ok (DataPage {| items := firstn t (skipn o s); total := List.length s;
                   page_limit := effective_limit x;
                   page_page := effective_page y |}), s) /\
  (t <= 100)%nat /\
  (List.length (firstn t (skipn o s)) <= 100)%nat.
Proof.
  intros Ex Ey V It Io.
  split; [exact (list_run engine s req x y t o Ex Ey It Io) |].
  assert (T : (t <= 100)%nat).
  { destruct (JS.ToBoolean x) eqn:B.
    - destruct (JS.lt (JS.of_Z 100) x) eqn:L.
      + rewrite (effective_limit_capped _ L) in It.
        vm_compute in It. injection It as <-. lia.
      + assert (Hx : x <> S754_nan) by (intros E; rewrite E in B;
                                        discriminate B).
        assert (Le : JS.le x (JS.of_Z 100) = true)
          by (apply not_lt_le; auto; vm_compute; discriminate).
        rewrite (effective_limit_kept _ B Le) in It.
        exact (to_index_at_most_100 _ _ V L It).
    - rewrite (effective_limit_falsy _ B) in It.
      vm_compute in It. injection It as <-. lia. }
  split; [exact T |]. rewrite length_firstn. lia.
Qed.

Lemma list_at_most_100_items_witness :
  run lenient
    (PokemonControllerPaged.list (request (QString "5000") (QString "1")))
    twelve =
  (ok (DataPage {| items := twelve; total := 12;
                   page_limit := JS.of_Z 100; page_page := JS.of_Z 1 |}),
   twelve) /\
  (100 <= 100)%nat /\ (List.length twelve <= 100)%nat.
Proof.
  apply (list_at_most_100_items lenient twelve
           (request (QString "5000") (QString "1"))
           (JS.of_Z 5000) (JS.of_Z 1) 100 0);
    vm_compute; reflexivity.
Defined.
